(** * wavefront-proxy: the command-line driver and the agent self-report

    A shallow embedding of [cmd/wavefront-proxy/proxy.go] (package main) and of
    [buildAgentMetrics] (package agent), with the properties of the
    specification that these two files decide.

    Go values are modelled as follows.
    - [string] is a Go string (a sequence of bytes).
    - Go's [int] and [int64] are 64-bit two's complement integers: a [Z]
      with the wrap-around written out ([wrap64]).
    - Package-level variables ([fTokenPtr], ..., [listeners]) are the fields
      of an explicit process state, threaded through a small state and
      error monad; [os.Exit], [log.Fatal] and [panic] end a run.
    - Calls that leave the two files (logging, [listener.Start],
      [listener.Stop], the agent) are recorded as events of a trace.
    - [main] starts one goroutine, for the pprof server.  The main
      goroutine and that goroutine are two programs of the monad, and the
      process is their composition under a schedule given from outside. *)

From Stdlib Require Import ZArith Lia List Bool Ascii String.
From stdpp Require Import base option list strings gmap fin_maps.

Local Open Scope string_scope.
Local Open Scope Z_scope.

(** ** Machine integers *)

Definition two63 : Z := 9223372036854775808.
Definition two64 : Z := 18446744073709551616.
Definition MaxInt64 : Z := two63 - 1.
Definition MinInt64 : Z := - two63.
Definition MaxUint64 : Z := two64 - 1.

(** The value of a 64-bit signed integer after an arithmetic operation whose
    mathematical result is [z]. *)
Definition wrap64 (z : Z) : Z := (z + two63) mod two64 - two63.

Definition in_int64 (z : Z) : Prop := MinInt64 <= z <= MaxInt64.

(** ** The pieces of Go's standard library that proxy.go calls *)

Module strings.

(** [strings.Split(s, sep)] for a separator of one byte, which is how
    proxy.go calls it (["," ] and ["."]).  The result is never empty:
    [Split("", sep)] is [[""]]. *)
Fixpoint Split (s : string) (sep : ascii) : list string :=
  match s with
  | EmptyString => [EmptyString]
  | String c s' =>
      if Ascii.eqb c sep then EmptyString :: Split s' sep
      else match Split s' sep with
           | h :: t => String c h :: t
           | [] => [String c EmptyString]
           end
  end.

End strings.

Module strconv.

(** [NumError.Err] is one of the two sentinel errors. *)
Inductive NumErr := ErrSyntax | ErrRange.

Definition byteZ (c : ascii) : Z := Z.of_N (N_of_ascii c).

(** [lower(c)] of strconv: [c | ('x' - 'X')]. *)
Definition lower (c : ascii) : Z := Z.lor (byteZ c) 32.

(** The digit value the [switch] of [ParseUint] computes for a byte, or
    [None] in its default case. *)
Definition digit_val (c : ascii) : option Z :=
  let b := byteZ c in
  if (48 <=? b) && (b <=? 57) then Some (b - 48)
  else if (97 <=? lower c) && (lower c <=? 122) then Some (lower c - 97 + 10)
  else None.

(** Smallest number such that [cutoff * 10] exceeds [MaxUint64]. *)
Definition cutoff10 : Z := MaxUint64 / 10 + 1.

(** The loop of [ParseUint(s, 10, 64)]: [n] is the [uint64] accumulator.
    A range error returns at once, before the remaining bytes are read. *)
Fixpoint ParseUint_loop (s : string) (n : Z) : Z * option NumErr :=
  match s with
  | EmptyString => (n, None)
  | String c s' =>
      match digit_val c with
      | None => (0, Some ErrSyntax)
      | Some d =>
          if 10 <=? d then (0, Some ErrSyntax)
          else if cutoff10 <=? n then (MaxUint64, Some ErrRange)
          else
            let n10 := n * 10 in
            let n1 := (n10 + d) mod two64 in
            if (n1 <? n10) || (MaxUint64 <? n1) then (MaxUint64, Some ErrRange)
            else ParseUint_loop s' n1
      end
  end.

Definition ParseUint (s : string) : Z * option NumErr :=
  match s with
  | EmptyString => (0, Some ErrSyntax)
  | _ => ParseUint_loop s 0
  end.

(** [ParseInt(s, 10, 0)] with [IntSize = 64]. *)
Definition ParseInt (s : string) : Z * option NumErr :=
  match s with
  | EmptyString => (0, Some ErrSyntax)
  | String c0 s' =>
      let neg := Ascii.eqb c0 "-"%char in
      let rest := if Ascii.eqb c0 "+"%char || neg then s' else s in
      match ParseUint rest with
      | (_, Some ErrSyntax) => (0, Some ErrSyntax)
      | (un, _) =>
          if negb neg && (two63 <=? un) then (two63 - 1, Some ErrRange)
          else if neg && (two63 <? un) then (- two63, Some ErrRange)
          else
            let n := wrap64 un in
            (if neg then wrap64 (- n) else n, None)
      end
  end.

(** The loop of the fast path of [Atoi]: [ch -= '0'; if ch > 9] on a
    byte, so a byte below ['0'] wraps above 9 as well. *)
Fixpoint Atoi_fast_loop (s : string) (n : Z) : Z * option NumErr :=
  match s with
  | EmptyString => (n, None)
  | String c s' =>
      let ch := (byteZ c - 48) mod 256 in
      if 9 <? ch then (0, Some ErrSyntax)
      else Atoi_fast_loop s' (n * 10 + ch)
  end.

(** [strconv.Atoi]: the fast path for strings of fewer than 19 bytes,
    [ParseInt(s, 10, 0)] otherwise. *)
Definition Atoi (s : string) : Z * option NumErr :=
  let sLen := String.length s in
  if (0 <? sLen)%nat && (sLen <? 19)%nat then
    match s with
    | EmptyString => (0, Some ErrSyntax)
    | String c0 s' =>
        let signed := Ascii.eqb c0 "-"%char || Ascii.eqb c0 "+"%char in
        let body := if signed then s' else s in
        if signed && (String.length body <? 1)%nat then (0, Some ErrSyntax)
        else
          match Atoi_fast_loop body 0 with
          | (n, None) => (if Ascii.eqb c0 "-"%char then - n else n, None)
          | (_, Some e) => (0, Some e)
          end
    end
  else ParseInt s.

End strconv.

(** ** [buildVersion] *)

(** proxy.go, [buildVersion]: the loop body, [version *= 1e3] then
    [version += intVersion], on a 64-bit [int]; the error of [Atoi] is
    discarded and its value used. *)
Definition buildVersion_step (version : Z) (seg : string) : Z :=
  let version := wrap64 (version * 1000) in
  let intVersion := fst (strconv.Atoi seg) in
  wrap64 (version + intVersion).

Definition buildVersion (v : string) : Z :=
  let s := strings.Split v "."%char in
  let version := fold_left buildVersion_step s 0 in
  let version :=
    if (length s =? 2)%nat then wrap64 (version * 1000)
    else wrap64 (version * 1000000) in
  version.

(** ** The process: state, environment, trace *)

(** The package-level flag variables of proxy.go after [flag.Parse].  Each
    is a pointer; the record holds the value it points to, which is what
    the program reads ([*fTokenPtr]) and what [parseCfg] replaces by
    redirecting the pointer. *)
Record Flags := mkFlags {
  fCfgPtr : string;
  fTokenPtr : string;
  fServerPtr : string;
  fHostnamePtr : string;
  fWavefrontPortsPtr : string;
  fOpenTSDBPortsPtr : string;
  fFlushThreadsPtr : Z;
  fFlushIntervalPtr : Z;
  fFlushMaxPointsPtr : Z;
  fMaxBufferSizePtr : Z;
  fIdFilePtr : string;
  fLogFilePtr : string;
  fPprofAddr : string;
  fVersionPtr : bool
}.

(** The fields of [config.ProxyConfig] that [parseCfg] reads (the type is
    declared in package config). *)
Record ProxyConfig := mkProxyConfig {
  Token : string;
  Server : string;
  Hostname : string;
  PushListenerPorts : string;
  OpenTSDBPorts : string;
  FlushThreads : Z;
  PushFlushInterval : Z;
  PushFlushMaxPoints : Z;
  PushMemoryBufferLimit : Z;
  IdFile : string;
  LogFile : string;
  PprofAddr : string
}.

(** The two decoder builders proxy.go instantiates. *)
Inductive DecoderBuilder := GraphiteBuilder | OpenTSDBBuilder.

(** A [*points.DefaultPointListener]: [addr] is the identity of the
    allocated object, so two listeners built from equal literals differ. *)
Record PointListener := mkListener {
  addr : nat;
  Port : Z;
  Builder : DecoderBuilder
}.

(** [api.WavefrontAPIService] as built by [main]. *)
Record WavefrontAPIService := mkService {
  ServerURL : string;
  AgentID : string;
  svcHostname : string;
  svcToken : string;
  Version : string
}.

(** The package-level constants of package api that proxy.go names. *)
Inductive ApiConst := FormatGraphiteV2 | GraphiteBlockWorkUnit.

Inductive Signal := Interrupt | OtherSignal (n : nat).

(** What the process does to the outside, in program order. *)
Inductive Event :=
| LogPrint (msg : string)
| FlagUsage
| LogSetOutput (file : string)
| GaugeUpdate (name : string) (value : Z)
| GoPprof (address : string)
| AgentInit (agentID serverURL : string) (service : WavefrontAPIService)
| ListenerStart (l : PointListener)
    (flushThreads flushInterval maxBufferSize flushMaxPoints : Z)
    (format workUnit : ApiConst) (service : WavefrontAPIService)
| ListenerStop (l : PointListener)
| SignalReceived (sig : Signal).

(** How a goroutine ends: [os.Exit], [log.Fatal] (which exits with status
    1), [panic], or parked for good: the main goroutine in [select] with no
    signal left to receive, the pprof goroutine in a server that keeps
    serving.  The first three end the process. *)
Inductive Halt :=
| OsExit (code : Z)
| LogFatal (msg : string)
| Panic (msg : string)
| Parked.

(** The outside world of one run: the flag values [flag.Parse] leaves,
    what [config.LoadConfig], [os.Hostname] and [os.Create] answer (on the
    right, or [Some], the error), the agent id that
    [agent.CreateOrGetAgentId] returns, the signals the channel of
    [waitForShutdown] delivers, and the four build variables. *)
Record World := mkWorld {
  flag_Parse : Flags;
  config_LoadConfig : string -> ProxyConfig + string;
  os_Hostname : string + string;
  os_Create : string -> option string;
  agent_CreateOrGetAgentId : string -> string;
  signals : list Signal;
  version : string;
  commit : string;
  branch : string;
  tag : string
}.

(** The mutable state: the flag variables, the [listeners] slice, the
    number of listener objects allocated, and the trace so far. *)
Record Proc := mkProc {
  flags : Flags;
  listeners : list PointListener;
  heap : nat;
  trace : list Event
}.

Inductive Result (A : Type) :=
| Done (a : A) (p : Proc)
| Halted (h : Halt) (p : Proc).
Arguments Done {A} a p.
Arguments Halted {A} h p.

Definition final {A} (r : Result A) : Proc :=
  match r with Done _ p => p | Halted _ p => p end.

Definition M (A : Type) : Type := Proc -> Result A.

#[export] Instance M_ret : MRet M := fun A a p => Done a p.
#[export] Instance M_bind : MBind M := fun A B f m p =>
  match m p with
  | Done a p' => f a p'
  | Halted h p' => Halted h p'
  end.

Definition get_flags : M Flags := fun p => Done (flags p) p.
Definition put_flags (f : Flags) : M unit :=
  fun p => Done tt (mkProc f (listeners p) (heap p) (trace p)).
Definition emit (e : Event) : M unit :=
  fun p => Done tt (mkProc (flags p) (listeners p) (heap p) (trace p ++ [e])).
Definition halt {A} (h : Halt) : M A := fun p => Halted h p.
Definition get_listeners : M (list PointListener) := fun p => Done (listeners p) p.

(** [&points.DefaultPointListener{Port: port, Builder: builder}]. *)
Definition new_listener (port : Z) (builder : DecoderBuilder) : M PointListener :=
  fun p => Done (mkListener (heap p) port builder)
                (mkProc (flags p) (listeners p) (S (heap p)) (trace p)).

(** [listeners = append(listeners, listener)]. *)
Definition append_listener (l : PointListener) : M unit :=
  fun p => Done tt (mkProc (flags p) (listeners p ++ [l]) (heap p) (trace p)).

Definition log_Println (msg : string) : M unit := emit (LogPrint msg).
Definition log_Fatal {A} (msg : string) : M A := halt (LogFatal msg).
Definition os_Exit {A} (code : Z) : M A := halt (OsExit code).

(** [for _, x := range xs { body x }]. *)
Fixpoint for_range {A} (xs : list A) (body : A -> M unit) : M unit :=
  match xs with
  | [] => mret tt
  | x :: xs' => body x ;; for_range xs' body
  end.

(** ** proxy.go *)

(** The twelve assignments of [parseCfg]: every flag pointer but
    [fCfgPtr] and [fVersionPtr] is redirected to a field of the loaded
    configuration. *)
Definition from_config (f : Flags) (proxyConfig : ProxyConfig) : Flags :=
  {| fCfgPtr := fCfgPtr f;
     fTokenPtr := Token proxyConfig;
     fServerPtr := Server proxyConfig;
     fHostnamePtr := Hostname proxyConfig;
     fWavefrontPortsPtr := PushListenerPorts proxyConfig;
     fOpenTSDBPortsPtr := OpenTSDBPorts proxyConfig;
     fFlushThreadsPtr := FlushThreads proxyConfig;
     fFlushIntervalPtr := PushFlushInterval proxyConfig;
     fFlushMaxPointsPtr := PushFlushMaxPoints proxyConfig;
     fMaxBufferSizePtr := PushMemoryBufferLimit proxyConfig;
     fIdFilePtr := IdFile proxyConfig;
     fLogFilePtr := LogFile proxyConfig;
     fPprofAddr := PprofAddr proxyConfig;
     fVersionPtr := fVersionPtr f |}.

Section Proxy.

Variable w : World.

Definition parseCfg (filename : string) : M unit :=
  match config_LoadConfig w filename with
  | inr err => log_Fatal ("Error loading config file: " ++ err)
  | inl proxyConfig =>
      f ← get_flags;
      put_flags (from_config f proxyConfig)
  end.

Definition stopListeners : M unit :=
  ls ← get_listeners;
  for_range ls (fun listener => emit (ListenerStop listener)).

(** The [for] loop around [select]: [sigs] are the signals the channel
    delivers, in order; with none left the goroutine stays parked. *)
Fixpoint waitForShutdown_loop (sigs : list Signal) : M unit :=
  match sigs with
  | [] => halt Parked
  | sig :: rest =>
      emit (SignalReceived sig) ;;
      match sig with
      | Interrupt =>
          log_Println "Stopping Wavefront Proxy" ;;
          stopListeners ;;
          os_Exit 0
      | _ => waitForShutdown_loop rest
      end
  end.

Definition waitForShutdown : M unit := waitForShutdown_loop (signals w).

Definition checkRequiredFlag (val msg : string) : M unit :=
  if String.eqb val "" then
    log_Println msg ;;
    emit FlagUsage ;;
    os_Exit 1
  else mret tt.

(** [fHostnamePtr = &hostname]. *)
Definition set_hostname (f : Flags) (hostname : string) : Flags :=
  {| fCfgPtr := fCfgPtr f;
     fTokenPtr := fTokenPtr f;
     fServerPtr := fServerPtr f;
     fHostnamePtr := hostname;
     fWavefrontPortsPtr := fWavefrontPortsPtr f;
     fOpenTSDBPortsPtr := fOpenTSDBPortsPtr f;
     fFlushThreadsPtr := fFlushThreadsPtr f;
     fFlushIntervalPtr := fFlushIntervalPtr f;
     fFlushMaxPointsPtr := fFlushMaxPointsPtr f;
     fMaxBufferSizePtr := fMaxBufferSizePtr f;
     fIdFilePtr := fIdFilePtr f;
     fLogFilePtr := fLogFilePtr f;
     fPprofAddr := fPprofAddr f;
     fVersionPtr := fVersionPtr f |}.

Definition checkHostname : M unit :=
  f ← get_flags;
  if String.eqb (fHostnamePtr f) "" then
    match os_Hostname w with
    | inr _ => log_Fatal "Error resolving hostname"
    | inl hostname => put_flags (set_hostname f hostname)
    end
  else mret tt.

Definition setupLogger : M unit :=
  f ← get_flags;
  if negb (String.eqb (fLogFilePtr f) "") then
    match os_Create w (fLogFilePtr f) with
    | Some err => halt (Panic err)
    | None => emit (LogSetOutput (fLogFilePtr f))
    end
  else mret tt.

Definition getVersion : string :=
  if String.eqb (tag w) "" then version w else tag w.

(** [flag.Parse] has run: the state the process starts in holds its
    result (see [start_state]). *)
Definition checkFlags : M unit :=
  f ← get_flags;
  (if fVersionPtr f then
     log_Println ("wavefront-proxy v" ++ getVersion ++ " (git: "
                  ++ branch w ++ " " ++ commit w ++ ")") ;;
     os_Exit 0
   else mret tt) ;;
  (if negb (String.eqb (fCfgPtr f) "") then parseCfg (fCfgPtr f) else mret tt) ;;
  f ← get_flags;
  checkRequiredFlag (fTokenPtr f) "Missing token" ;;
  f ← get_flags;
  checkRequiredFlag (fServerPtr f) "Missing server" ;;
  checkHostname ;;
  setupLogger.

Definition startPointListener (listener : PointListener)
    (service : WavefrontAPIService) : M unit :=
  f ← get_flags;
  emit (ListenerStart listener (fFlushThreadsPtr f) (fFlushIntervalPtr f)
          (fMaxBufferSizePtr f) (fFlushMaxPointsPtr f)
          FormatGraphiteV2 GraphiteBlockWorkUnit service).

Definition startPointListeners (service : WavefrontAPIService)
    (portsList : string) (builder : DecoderBuilder) : M unit :=
  let ports := strings.Split portsList ","%char in
  for_range ports (fun portStr =>
    match strconv.Atoi portStr with
    | (_, Some _) => log_Fatal ("Invalid port " ++ portStr)
    | (port, None) =>
        listener ← new_listener port builder;
        append_listener listener ;;
        startPointListener listener service
    end).

Definition startListeners (service : WavefrontAPIService) : M unit :=
  f ← get_flags;
  (if negb (String.eqb (fWavefrontPortsPtr f) "") then
     startPointListeners service (fWavefrontPortsPtr f) GraphiteBuilder
   else mret tt) ;;
  f ← get_flags;
  (if negb (String.eqb (fOpenTSDBPortsPtr f) "") then
     startPointListeners service (fOpenTSDBPortsPtr f) OpenTSDBBuilder
   else mret tt).

(** [agent.InitAgent] runs in package agent; the call is an event. *)
Definition initAgent (agentID serverURL : string)
    (service : WavefrontAPIService) : M unit :=
  emit (AgentInit agentID serverURL service).

(** [main] up to and including [startListeners], as the main goroutine
    runs it.  The [go] statement of proxy.go:202-209 is the event
    [GoPprof]: it starts a goroutine and returns at once.  The body of that
    goroutine, with its [log.Printf] and its [log.Fatal], is
    [pprof_goroutine] below, and [process] runs the two side by side. *)
Definition startup : M unit :=
  checkFlags ;;
  log_Println ("Starting Wavefront Proxy Version " ++ version w) ;;
  emit (GaugeUpdate "build.version" (buildVersion (version w))) ;;
  f ← get_flags;
  (if negb (String.eqb (fPprofAddr f) "") then emit (GoPprof (fPprofAddr f))
   else mret tt) ;;
  f ← get_flags;
  let agentID := agent_CreateOrGetAgentId w (fIdFilePtr f) in
  let apiService := {|
    ServerURL := fServerPtr f;
    AgentID := agentID;
    svcHostname := fHostnamePtr f;
    svcToken := fTokenPtr f;
    Version := version w |} in
  initAgent agentID (fServerPtr f) apiService ;;
  startListeners apiService.

(** [main]: the statements of [startup], then [waitForShutdown]. *)
Definition main : M unit :=
  startup ;;
  waitForShutdown.

(** The state [main] starts in: the flags as parsed, no listener. *)
Definition start_state : Proc :=
  {| flags := flag_Parse w; listeners := []; heap := 0%nat; trace := [] |}.

(** The run of the main goroutine, left to itself.  What the pprof
    goroutine adds to it, and takes from it, is in [process]. *)
Definition run_main : Result unit := main start_state.

End Proxy.

(** ** The goroutine of the pprof server, and the process *)

(** What the pprof goroutine meets.  [http_ListenAndServe address] is what
    [http.ListenAndServe(address, nil)] does: [Some err], it returns the
    error [err]; [None], it serves for as long as the process lives (it
    never returns nil).  The two numbers are the schedule of the goroutine,
    counted in events of the main goroutine after the [go] statement:
    [pprof_log_after] of them happen before the goroutine's [log.Printf]
    and [pprof_fail_after] more before [ListenAndServe] returns. *)
Record Pprof := mkPprof {
  http_ListenAndServe : string -> option string;
  pprof_log_after : nat;
  pprof_fail_after : nat
}.

(** The body of the goroutine, proxy.go:203-208.  It reads [*fPprofAddr]
    when it runs; no one writes the flags after [checkFlags]. *)
Definition pprof_goroutine (n : Pprof) : M unit :=
  f ← get_flags;
  log_Println ("Starting pprof HTTP server at: " ++ fPprofAddr f) ;;
  match http_ListenAndServe n (fPprofAddr f) with
  | Some err => log_Fatal err
  | None => halt Parked
  end.

(** What a process has done when it ends, or for good when it never ends:
    the events of the main goroutine, those of the pprof goroutine, and how
    it ended ([Parked]: it did not). *)
Record Outcome := mkOutcome {
  main_events : list Event;
  pprof_events : list Event;
  ended : Halt
}.

(** The position of the [go] statement in the events of the main
    goroutine. *)
Fixpoint spawn_index (tr : list Event) : option nat :=
  match tr with
  | [] => None
  | GoPprof _ :: _ => Some 0%nat
  | _ :: rest => S <$> spawn_index rest
  end.

(** How the main goroutine ends the process; returning from [main] would
    exit with status 0. *)
Definition main_end (r : Result unit) : Halt :=
  match r with
  | Halted h _ => h
  | Done _ _ => OsExit 0
  end.

Definition is_parked (h : Halt) : bool :=
  match h with Parked => true | _ => false end.

(** The process: the main goroutine and, once the [go] statement has run,
    the pprof goroutine beside it.  The process ends with the first of the
    two that ends it.  When [ListenAndServe] returns its error while the
    main goroutine is still running or parked, the goroutine's [log.Fatal]
    ends the process, and the main goroutine got as far as the schedule
    let it; otherwise the main goroutine runs as [run_main] says.  The
    goroutine's log line is written when it is scheduled before the
    process ends. *)
Definition process (w : World) (n : Pprof) : Outcome :=
  let r := run_main w in
  let tr := trace (final r) in
  match spawn_index tr with
  | None => mkOutcome tr [] (main_end r)
  | Some i =>
      let g := pprof_goroutine n (mkProc (flags (final r)) [] 0 []) in
      let rest := (length tr - S i)%nat in
      let logged := (pprof_log_after n <=? rest)%nat || is_parked (main_end r) in
      let fatal_at := (pprof_log_after n + pprof_fail_after n)%nat in
      match g with
      | Halted (LogFatal err) pg =>
          if (fatal_at <? rest)%nat || is_parked (main_end r)
          then mkOutcome (take (S i + fatal_at) tr) (trace pg) (LogFatal err)
          else mkOutcome tr (if logged then trace pg else []) (main_end r)
      | _ => mkOutcome tr (if logged then trace (final g) else []) (main_end r)
      end
  end.

(** ** Package agent: [buildAgentMetrics] *)

Module agent.

(** The kinds of metric a go-metrics registry holds.  Only a counter has
    the method set of [metrics.Counter], so only it matches the
    [case metrics.Counter] of the type switch. *)
Inductive Metric :=
| Counter (count : Z)
| Gauge (value : Z)
| GaugeFloat64
| Healthcheck
| Histogram (count : Z)
| Meter (count : Z)
| Timer (count : Z).

(** What [buildAgentMetrics] writes to the log. *)
Inductive LogLine :=
| LogCounter (name : string) (count : Z)
| LogMarshalError (err : string).

(** [metrics.DefaultRegistry.Each(f)]: [f] is called once per registered
    metric; [f] updates the variables it captures, here the state [S]. *)
Definition Each {S : Type} (registry : gmap string Metric)
    (f : string -> Metric -> S -> S) (s : S) : S :=
  map_fold f s registry.

(** The closure passed to [Each]: the type switch with its one case. *)
Definition visit (name : string) (i : Metric)
    (st : gmap string Z * list LogLine) : gmap string Z * list LogLine :=
  match i with
  | Counter count =>
      (<[name := count]> (fst st), (snd st ++ [LogCounter name count])%list)
  | _ => st
  end.

(** [agentMetrics] when [Each] has returned, and the lines logged. *)
Definition collect (registry : gmap string Metric)
  : gmap string Z * list LogLine :=
  Each registry visit (∅, []).

(** The description's words: the map from name to count of every counter
    of the registry, and nothing else. *)
Definition counters (registry : gmap string Metric) : gmap string Z :=
  omap (fun i => match i with Counter count => Some count | _ => None end)
       registry.

Section BuildAgentMetrics.

(** [json.Marshal] on a [map[string]interface{}] of [int64] values:
    the bytes and the error it returns. *)
Variable json_Marshal : gmap string Z -> string * option string.

(** The returned [[]byte] and the log lines. *)
Definition buildAgentMetrics (registry : gmap string Metric)
  : string * list LogLine :=
  let (agentMetrics, logged) := collect registry in
  let (b, err) := json_Marshal agentMetrics in
  match err with
  | Some e => (b, (logged ++ [LogMarshalError e])%list)
  | None => (b, logged)
  end.

End BuildAgentMetrics.

End agent.

(** ** The point buffer of a listener *)

Module PointBuffer.

Section Buffer.

Variable Point : Type.

(** Modelled from the spec: the PointBuffer of package points, which
proxy.go reaches only through [listener.Start]: a holding area for
pending points with a capacity fixed at creation. *)
Record t := mk {
capacity : nat;
pending : list Point
}.

(** Modelled from the spec: the buffer a listener creates at start,
empty, with capacity [maxBufferSize]. *)
Definition create (maxBufferSize : nat) : t :=
{| capacity := maxBufferSize; pending := [] |}.

Definition size (b : t) : nat := length (pending b).

(** Modelled from the spec: [tryEnqueue(point) -> bool] does not block;
at capacity it returns false and leaves the buffer as it is. *)
Definition tryEnqueue (point : Point) (b : t) : bool * t :=
if (size b <? capacity b)%nat then
(true, {| capacity := capacity b; pending := pending b ++ [point] |})
else (false, b).

(** Modelled from the spec: [drainUpTo(n)] removes up to [n] points in
one atomic step, fewer if fewer are pending. *)
Definition drainUpTo (n : nat) (b : t) : list Point * t :=
(take n (pending b),
{| capacity := capacity b; pending := drop n (pending b) |}).

(** Modelled from the spec: all access to the buffer is mutually
exclusive, so a concurrent run is a sequence of whole operations,
each issued by some producer or consumer task, in any order. *)
Inductive Op :=
| Enqueue (producer : nat) (point : Point)
| Drain (consumer : nat) (n : nat).

Definition step (b : t) (op : Op) : t :=
match op with
| Enqueue _ point => snd (tryEnqueue point b)
| Drain _ n => snd (drainUpTo n b)
end.

(** The buffer at every instant of a run: before the first operation
and after each one. *)
Fixpoint instants (b : t) (schedule : list Op) : list t :=
match schedule with
| [] => [b]
| op :: rest => b :: instants (step b op) rest
end.

Definition within_capacity (b : t) : Prop := (size b <= capacity b)%nat.

End Buffer.

Arguments capacity {Point} _.
Arguments pending {Point} _.
Arguments create {Point} _.
Arguments size {Point} _.
Arguments tryEnqueue {Point} _ _.
Arguments drainUpTo {Point} _ _.
Arguments Enqueue {Point} _ _.
Arguments Drain {Point} _ _.
Arguments step {Point} _ _.
Arguments instants {Point} _ _.
Arguments within_capacity {Point} _.

End PointBuffer.

(** * Vocabulary of the properties *)

(** ** Decimal strings *)

Definition is_digit (c : ascii) : bool :=
  (48 <=? strconv.byteZ c) && (strconv.byteZ c <=? 57).

Fixpoint all_digits (s : string) : bool :=
  match s with
  | EmptyString => true
  | String c s' => is_digit c && all_digits s'
  end.

Definition is_sign (c : ascii) : bool :=
  Ascii.eqb c "-"%char || Ascii.eqb c "+"%char.

(** A decimal integer: an optional sign, then one digit or more. *)
Definition decimal_integer (s : string) : bool :=
  match s with
  | EmptyString => false
  | String c s' =>
      if is_sign c then negb (String.eqb s' "") && all_digits s'
      else all_digits s
  end.

(** The number a string of digits denotes, continuing from [acc]. *)
Fixpoint digits_value (s : string) (acc : Z) : Z :=
  match s with
  | EmptyString => acc
  | String c s' => digits_value s' (acc * 10 + (strconv.byteZ c - 48))
  end.

(** The integer a decimal integer denotes. *)
Definition decimal_value (s : string) : Z :=
  match s with
  | EmptyString => 0
  | String c s' =>
      if Ascii.eqb c "-"%char then - digits_value s' 0
      else if Ascii.eqb c "+"%char then digits_value s' 0
      else digits_value s 0
  end.

(** ** [strings.Split] *)

Fixpoint has_byte (c : ascii) (s : string) : bool :=
  match s with
  | EmptyString => false
  | String c' s' => Ascii.eqb c' c || has_byte c s'
  end.

(** ** [buildVersion] against its description *)

(** What a segment contributes: the value [Atoi] returns for it. *)
Definition segment_value (seg : string) : Z := fst (strconv.Atoi seg).

(** The description's words: accumulate the segment values in base 1000. *)
Definition accumulate_base1000 (xs : list Z) : Z :=
  fold_left (fun acc x => acc * 1000 + x) xs 0.

(** The description's words: the final factor. *)
Definition version_scale (segments : nat) : Z :=
  if (segments =? 2)%nat then 1000 else 1000000.

(** ** Observations on a run *)

(** The listeners on which [Start] was called, in call order. *)
Definition started (tr : list Event) : list PointListener :=
  omap (fun e => match e with
                 | ListenerStart l _ _ _ _ _ _ _ => Some l
                 | _ => None
                 end) tr.

(** The listeners on which [Stop] was called, in call order. *)
Definition stopped (tr : list Event) : list PointListener :=
  omap (fun e => match e with ListenerStop l => Some l | _ => None end) tr.

(** A halt that ends the process (anything but waiting for a signal). *)
Definition terminated (h : Halt) : Prop := h <> Parked.

(** The entries of a port list: none for the empty string, which
    [startListeners] skips, else the comma-separated fields. *)
Definition entries (portsList : string) : list string :=
  if String.eqb portsList "" then [] else strings.Split portsList ","%char.

(** The listeners [startListeners] is to build, in order: each entry of
    the push list with the Graphite builder, then each entry of the
    OpenTSDB list with the OpenTSDB builder. *)
Definition plan (f : Flags) : list (string * DecoderBuilder) :=
  map (fun s => (s, GraphiteBuilder)) (entries (fWavefrontPortsPtr f))
  ++ map (fun s => (s, OpenTSDBBuilder)) (entries (fOpenTSDBPortsPtr f)).

(** [Atoi] returns no error. *)
Definition port_ok (s : string) : bool :=
  match snd (strconv.Atoi s) with None => true | Some _ => false end.

(** The entries before the first one [Atoi] rejects. *)
Fixpoint good_prefix (items : list (string * DecoderBuilder))
  : list (string * DecoderBuilder) :=
  match items with
  | [] => []
  | (s, b) :: rest => if port_ok s then (s, b) :: good_prefix rest else []
  end.

(** The first entry [Atoi] rejects. *)
Fixpoint first_bad (items : list (string * DecoderBuilder)) : option string :=
  match items with
  | [] => None
  | (s, b) :: rest => if port_ok s then first_bad rest else Some s
  end.

(** One listener per item, allocated consecutively from [base]. *)
Fixpoint make_listeners (base : nat) (items : list (string * DecoderBuilder))
  : list PointListener :=
  match items with
  | [] => []
  | (s, b) :: rest =>
      mkListener base (fst (strconv.Atoi s)) b :: make_listeners (S base) rest
  end.

(** The [Start] call [startPointListener] makes under flags [f]. *)
Definition start_event (f : Flags) (service : WavefrontAPIService)
    (l : PointListener) : Event :=
  ListenerStart l (fFlushThreadsPtr f) (fFlushIntervalPtr f) (fMaxBufferSizePtr f)
    (fFlushMaxPointsPtr f) FormatGraphiteV2 GraphiteBlockWorkUnit service.

(** The state after the listeners [ls] were allocated, appended and
    started from state [p]. *)
Definition after_listeners (service : WavefrontAPIService) (p : Proc)
    (ls : list PointListener) : Proc :=
  {| flags := flags p;
     listeners := listeners p ++ ls;
     heap := (heap p + length ls)%nat;
     trace := trace p ++ map (start_event (flags p) service) ls |}.

(** The loop body of [startPointListeners], for an entry and a builder. *)
Definition start_item (service : WavefrontAPIService)
    (item : string * DecoderBuilder) : M unit :=
  match strconv.Atoi (fst item) with
  | (_, Some _) => log_Fatal ("Invalid port " ++ fst item)
  | (port, None) =>
      listener ← new_listener port (snd item);
      append_listener listener ;;
      startPointListener listener service
  end.

(** ** [checkFlags] and [startup], case by case *)

(** The flags in force once the configuration file, if one is named, has
    been loaded; [None] when loading it fails. *)
Definition effective_of (w : World) (f : Flags) : option Flags :=
  if String.eqb (fCfgPtr f) "" then Some f
  else match config_LoadConfig w (fCfgPtr f) with
       | inl proxyConfig => Some (from_config f proxyConfig)
       | inr _ => None
       end.

Definition effective_flags (w : World) : option Flags :=
  effective_of w (flag_Parse w).

(** The flags after [checkHostname]; [None] when the hostname is unset and
    [os.Hostname] fails. *)
Definition hostnamed (w : World) (f : Flags) : option Flags :=
  if String.eqb (fHostnamePtr f) "" then
    match os_Hostname w with
    | inl hostname => Some (set_hostname f hostname)
    | inr _ => None
    end
  else Some f.

(** [setupLogger] can open the log file, when one is named. *)
Definition logger_ok (w : World) (f : Flags) : bool :=
  if String.eqb (fLogFilePtr f) "" then true
  else match os_Create w (fLogFilePtr f) with None => true | Some _ => false end.

(** The [api.WavefrontAPIService] that [main] builds from the flags. *)
Definition service_of (w : World) (f : Flags) : WavefrontAPIService :=
  {| ServerURL := fServerPtr f;
     AgentID := agent_CreateOrGetAgentId w (fIdFilePtr f);
     svcHostname := fHostnamePtr f;
     svcToken := fTokenPtr f;
     Version := version w |}.

(** What [main] emits between [checkFlags] and [startListeners]. *)
Definition pre_events (w : World) (f : Flags) : list Event :=
  ([LogPrint ("Starting Wavefront Proxy Version " ++ version w);
    GaugeUpdate "build.version" (buildVersion (version w))]
   ++ (if String.eqb (fPprofAddr f) "" then [] else [GoPprof (fPprofAddr f)])
   ++ [AgentInit (agent_CreateOrGetAgentId w (fIdFilePtr f)) (fServerPtr f)
         (service_of w f)])%list.

(** ** Port entries *)

(** A port entry [Atoi] accepts: a decimal integer in the range of [int]. *)
Definition valid_entry (s : string) : Prop :=
  decimal_integer s = true /\ in_int64 (decimal_value s).

(** ** Shutdown *)

(** The signals received before the first interrupt. *)
Fixpoint before_interrupt (sigs : list Signal) : list Signal :=
  match sigs with
  | [] => []
  | Interrupt :: _ => []
  | sig :: rest => sig :: before_interrupt rest
  end.

Fixpoint has_interrupt (sigs : list Signal) : bool :=
  match sigs with
  | [] => false
  | Interrupt :: _ => true
  | _ :: rest => has_interrupt rest
  end.

(** The state with [evs] appended to the trace. *)
Definition with_events (p : Proc) (evs : list Event) : Proc :=
  {| flags := flags p; listeners := listeners p; heap := heap p;
     trace := trace p ++ evs |}.

(** ** Listener configuration, hostname, configuration file *)

(** What C5 says of one event. *)
Definition start_uses (eff : Flags) (e : Event) : Prop :=
  match e with
  | ListenerStart _ flushThreads flushInterval maxBufferSize flushMaxPoints
      format workUnit _ =>
      flushThreads = fFlushThreadsPtr eff
      /\ flushInterval = fFlushIntervalPtr eff
      /\ maxBufferSize = fMaxBufferSizePtr eff
      /\ flushMaxPoints = fFlushMaxPointsPtr eff
      /\ format = FormatGraphiteV2
      /\ workUnit = GraphiteBlockWorkUnit
  | _ => True
  end.

(** The twelve parameters a configuration file sets, as read from flags. *)
Definition file_parameters (f : Flags) : ProxyConfig :=
  {| Token := fTokenPtr f; Server := fServerPtr f; Hostname := fHostnamePtr f;
     PushListenerPorts := fWavefrontPortsPtr f; OpenTSDBPorts := fOpenTSDBPortsPtr f;
     FlushThreads := fFlushThreadsPtr f; PushFlushInterval := fFlushIntervalPtr f;
     PushFlushMaxPoints := fFlushMaxPointsPtr f;
     PushMemoryBufferLimit := fMaxBufferSizePtr f;
     IdFile := fIdFilePtr f; LogFile := fLogFilePtr f; PprofAddr := fPprofAddr f |}.

(** ** Concrete runs *)

(** Flags as a command line would leave them: no configuration file, no
    hostname, two push ports and one OpenTSDB port. *)
Definition demo_flags : Flags :=
  {| fCfgPtr := ""; fTokenPtr := "tok"; fServerPtr := "https://metrics.example.com/api";
     fHostnamePtr := ""; fWavefrontPortsPtr := "2878,2879"; fOpenTSDBPortsPtr := "4242";
     fFlushThreadsPtr := 2; fFlushIntervalPtr := 1000; fFlushMaxPointsPtr := 40000;
     fMaxBufferSizePtr := 100000; fIdFilePtr := ".wavefront_id"; fLogFilePtr := "";
     fPprofAddr := ""; fVersionPtr := false |}.

(** A configuration file with an empty hostname and an empty log file. *)
Definition demo_config : ProxyConfig :=
  {| Token := "file-tok"; Server := "https://file.example.com/api";
     Hostname := ""; PushListenerPorts := "3878"; OpenTSDBPorts := "";
     FlushThreads := 4; PushFlushInterval := 500; PushFlushMaxPoints := 1000;
     PushMemoryBufferLimit := 5000; IdFile := "id"; LogFile := "";
     PprofAddr := "" |}.

Definition world_of (f : Flags) : World :=
  {| flag_Parse := f;
     config_LoadConfig := fun name =>
       if String.eqb name "proxy.conf" then inl demo_config
       else inr "no such file";
     os_Hostname := inl "proxy-host";
     os_Create := fun _ => None;
     agent_CreateOrGetAgentId := fun _ => "agent-1";
     signals := [OtherSignal 1; Interrupt];
     version := "0.9.1"; commit := "c0ffee"; branch := "master"; tag := "" |}.

Definition demo_world : World := world_of demo_flags.

(** The flags with the given token and port lists. *)
Definition flags_with (token pushPorts opentsdbPorts : string) : Flags :=
  {| fCfgPtr := ""; fTokenPtr := token; fServerPtr := fServerPtr demo_flags;
     fHostnamePtr := "proxy-1"; fWavefrontPortsPtr := pushPorts;
     fOpenTSDBPortsPtr := opentsdbPorts;
     fFlushThreadsPtr := 2; fFlushIntervalPtr := 1000; fFlushMaxPointsPtr := 40000;
     fMaxBufferSizePtr := 100000; fIdFilePtr := ".wavefront_id"; fLogFilePtr := "";
     fPprofAddr := ""; fVersionPtr := false |}.

Definition demo_service : WavefrontAPIService :=
  service_of demo_world (set_hostname demo_flags "proxy-host").

Definition demo_registry : gmap string agent.Metric :=
  <["points.dropped" := agent.Counter 3]>
    (<["build.version" := agent.Gauge 9001000000]>
       (<["points.received" := agent.Counter 12]> ∅)).

(** ** Further observations on a run *)

(** The line [checkFlags] logs for the version flag. *)
Definition version_line (w : World) : string :=
  "wavefront-proxy v" ++ getVersion w ++ " (git: " ++ branch w ++ " "
  ++ commit w ++ ")".

(** What a returning [setupLogger] emits under flags [f]. *)
Definition logger_events (f : Flags) : list Event :=
  if String.eqb (fLogFilePtr f) "" then [] else [LogSetOutput (fLogFilePtr f)].

(** The gauge updates of a trace, in order. *)
Definition gauges (tr : list Event) : list (string * Z) :=
  omap (fun e => match e with
                 | GaugeUpdate name value => Some (name, value)
                 | _ => None
                 end) tr.

(** The addresses on which a pprof server was started, in order. *)
Definition pprofs (tr : list Event) : list string :=
  omap (fun e => match e with GoPprof address => Some address | _ => None end) tr.



(** The signals received, in order. *)
Definition received (tr : list Event) : list Signal :=
  omap (fun e => match e with SignalReceived sig => Some sig | _ => None end) tr.

(** The lines written with [log.Println] or [log.Printf], in order. *)
Definition log_lines (tr : list Event) : list string :=
  omap (fun e => match e with LogPrint msg => Some msg | _ => None end) tr.

(** The state once [startListeners] has run from the state [p1] that
    [checkFlags] left: the events of [main] before the listeners, then one
    started listener per entry up to the first one [Atoi] rejects. *)
Definition listening (w : World) (p1 : Proc) : Proc :=
  after_listeners (service_of w (flags p1))
    (with_events p1 (pre_events w (flags p1)))
    (make_listeners (heap p1) (good_prefix (plan (flags p1)))).

(** The events [checkFlags] can emit. *)
Definition check_event (e : Event) : Prop :=
  match e with
  | LogPrint _ | FlagUsage | LogSetOutput _ => True
  | _ => False
  end.

(** The events [waitForShutdown] can emit. *)
Definition shutdown_event (e : Event) : Prop :=
  match e with
  | SignalReceived _ | ListenerStop _ => True
  | LogPrint msg => msg = "Stopping Wavefront Proxy"
  | _ => False
  end.

(** The (name, count) pairs of the counter lines of a log, in order. *)
Definition counter_lines (logged : list agent.LogLine) : list (string * Z) :=
  omap (fun l => match l with
                 | agent.LogCounter name count => Some (name, count)
                 | _ => None
                 end) logged.

(** ** Further concrete runs *)

(** The flags [f] with the configuration path, the log file and the
    version flag replaced. *)
Definition flags_opts (f : Flags) (cfg logFile : string) (showVersion : bool)
  : Flags :=
  {| fCfgPtr := cfg; fTokenPtr := fTokenPtr f; fServerPtr := fServerPtr f;
     fHostnamePtr := fHostnamePtr f;
     fWavefrontPortsPtr := fWavefrontPortsPtr f;
     fOpenTSDBPortsPtr := fOpenTSDBPortsPtr f;
     fFlushThreadsPtr := fFlushThreadsPtr f;
     fFlushIntervalPtr := fFlushIntervalPtr f;
     fFlushMaxPointsPtr := fFlushMaxPointsPtr f;
     fMaxBufferSizePtr := fMaxBufferSizePtr f;
     fIdFilePtr := fIdFilePtr f; fLogFilePtr := logFile;
     fPprofAddr := fPprofAddr f; fVersionPtr := showVersion |}.

(** A world in which the host has no name, no file can be created and
    the build carries a tag. *)
Definition harsh_world (f : Flags) : World :=
  {| flag_Parse := f;
     config_LoadConfig := fun _ => inr "no such file";
     os_Hostname := inr "no hostname";
     os_Create := fun _ => Some "permission denied";
     agent_CreateOrGetAgentId := fun _ => "agent-1";
     signals := [];
     version := "0.9.1"; commit := "c0ffee"; branch := "master";
     tag := "v0.9.1" |}.

(** A registry without counter. *)
Definition gauge_registry : gmap string agent.Metric :=
  <["build.version" := agent.Gauge 9001000000]> ∅.

(** ** The process and the pprof server *)

(** An event other than the [go] statement. *)
Definition not_spawn (e : Event) : Prop :=
  match e with GoPprof _ => False | _ => True end.

(** The [Start] calls of a trace, in order. *)
Definition start_calls (tr : list Event) : list Event :=
  omap (fun e => match e with
                 | ListenerStart _ _ _ _ _ _ _ _ => Some e
                 | _ => None
                 end) tr.

(** No pprof server is started under [eff], or the one started keeps
    serving. *)
Definition pprof_serves (n : Pprof) (eff : Flags) : Prop :=
  fPprofAddr eff = "" \/ http_ListenAndServe n (fPprofAddr eff) = None.

(** The pprof server does not end the process before the listeners of
    [eff] are started: it serves, or its failure comes after the call of
    [initAgent] and the [Start] calls, one per planned entry, that the main
    goroutine makes after the [go] statement. *)
Definition pprof_spares (n : Pprof) (eff : Flags) : Prop :=
  pprof_serves n eff
  \/ (length (plan eff) < pprof_log_after n + pprof_fail_after n)%nat.

(** The flags of a command line that names a pprof address. *)
Definition pprof_flags (address : string) : Flags :=
  {| fCfgPtr := ""; fTokenPtr := "tok"; fServerPtr := fServerPtr demo_flags;
     fHostnamePtr := "proxy-1"; fWavefrontPortsPtr := "2878,2879";
     fOpenTSDBPortsPtr := "4242";
     fFlushThreadsPtr := 2; fFlushIntervalPtr := 1000; fFlushMaxPointsPtr := 40000;
     fMaxBufferSizePtr := 100000; fIdFilePtr := ".wavefront_id"; fLogFilePtr := "";
     fPprofAddr := address; fVersionPtr := false |}.

(** A pprof server that keeps serving, scheduled at once. *)
Definition serving : Pprof :=
  {| http_ListenAndServe := fun _ => None;
     pprof_log_after := 0; pprof_fail_after := 0 |}.

(** A pprof server that cannot listen on its address. *)
Definition failing (log_after fail_after : nat) : Pprof :=
  {| http_ListenAndServe := fun address =>
       Some ("listen tcp: address " ++ address ++ ": missing port in address");
     pprof_log_after := log_after; pprof_fail_after := fail_after |}.

(** * Properties *)

Example buildVersion_0_9 : buildVersion "0.9" = 9000.
Proof. reflexivity. Qed.
Example buildVersion_0_9_1 : buildVersion "0.9.1" = 9001000000.
Proof. reflexivity. Qed.
Example buildVersion_dev : buildVersion "1.2.3-dev" = 1002000000000.
Proof. reflexivity. Qed.
Example buildVersion_empty : buildVersion "" = 0.
Proof. reflexivity. Qed.

(** ** Arithmetic of [wrap64] *)

Lemma wrap64_id (z : Z) : in_int64 z -> wrap64 z = z.
Proof.
  unfold in_int64, wrap64, MinInt64, MaxInt64, two64, two63. intros H.
  rewrite Z.mod_small; lia.
Qed.

Lemma wrap64_range (z : Z) : in_int64 (wrap64 z).
Proof.
  unfold in_int64, wrap64, MinInt64, MaxInt64.
  pose proof (Z.mod_pos_bound (z + two63) two64) as H.
  unfold two64, two63 in *. lia.
Qed.

Lemma wrap64_shift (z k : Z) : wrap64 (z + k * two64) = wrap64 z.
Proof.
  unfold wrap64. replace (z + k * two64 + two63) with (z + two63 + k * two64) by ring.
  now rewrite Z_mod_plus_full.
Qed.

Lemma wrap64_decomp (z : Z) : exists q, wrap64 z = z + q * two64.
Proof.
  exists (- ((z + two63) / two64)). unfold wrap64.
  rewrite Z.mod_eq by (unfold two64; lia). ring.
Qed.

Lemma wrap64_mul_l (a k : Z) : wrap64 (wrap64 a * k) = wrap64 (a * k).
Proof.
  destruct (wrap64_decomp a) as [q ->].
  replace ((a + q * two64) * k) with (a * k + (q * k) * two64) by ring.
  apply wrap64_shift.
Qed.

Lemma wrap64_add_l (a b : Z) : wrap64 (wrap64 a + b) = wrap64 (a + b).
Proof.
  destruct (wrap64_decomp a) as [q ->].
  replace (a + q * two64 + b) with (a + b + q * two64) by ring.
  apply wrap64_shift.
Qed.

Lemma wrap64_idem (a : Z) : wrap64 (wrap64 a) = wrap64 a.
Proof. apply wrap64_id, wrap64_range. Qed.



Lemma byteZ_bound (c : ascii) : 0 <= strconv.byteZ c < 256.
Proof.
  unfold strconv.byteZ. pose proof (N_ascii_bounded c). lia.
Qed.

Lemma is_digit_bounds (c : ascii) :
  is_digit c = true <-> 48 <= strconv.byteZ c <= 57.
Proof. unfold is_digit. rewrite andb_true_iff, !Z.leb_le. tauto. Qed.

Lemma sign_not_digit (c : ascii) : is_sign c = true -> is_digit c = false.
Proof.
  unfold is_sign. rewrite orb_true_iff, !Ascii.eqb_eq.
  intros [-> | ->]; reflexivity.
Qed.

Lemma digits_value_ge (s : string) (acc : Z) :
  all_digits s = true -> 0 <= acc -> acc <= digits_value s acc.
Proof.
  revert acc. induction s as [|c s IH]; intros acc Hd Hacc; simpl in *; [lia|].
  apply andb_true_iff in Hd as [Hc Hs]. apply is_digit_bounds in Hc.
  specialize (IH (acc * 10 + (strconv.byteZ c - 48)) Hs). lia.
Qed.

Lemma digits_value_lt_pow (s : string) (acc : Z) :
  all_digits s = true -> 0 <= acc ->
  digits_value s acc < (acc + 1) * 10 ^ Z.of_nat (String.length s).
Proof.
  revert acc. induction s as [|c s IH]; intros acc Hd Hacc.
  - simpl. lia.
  - cbn [digits_value String.length all_digits] in *.
    apply andb_true_iff in Hd as [Hc Hs]. apply is_digit_bounds in Hc.
    specialize (IH (acc * 10 + (strconv.byteZ c - 48)) Hs).
    rewrite Nat2Z.inj_succ, Z.pow_succ_r by lia.
    assert (0 < 10 ^ Z.of_nat (String.length s)) by (apply Z.pow_pos_nonneg; lia).
    nia.
Qed.

(** ** What [strconv.Atoi] accepts and returns *)

Lemma fast_byte_test (c : ascii) :
  (9 <? (strconv.byteZ c - 48) mod 256) = negb (is_digit c).
Proof.
  pose proof (byteZ_bound c) as Hb. unfold is_digit.
  destruct (Z.leb_spec 48 (strconv.byteZ c)) as [H48|H48]; simpl.
  - rewrite Z.mod_small by lia.
    destruct (Z.leb_spec (strconv.byteZ c) 57); simpl; lia.
  - replace ((strconv.byteZ c - 48) mod 256) with (strconv.byteZ c - 48 + 256).
    + apply Z.ltb_lt. lia.
    + symmetry. rewrite <- (Z_mod_plus_full _ 1 256).
      rewrite Z.mod_small; lia.
Qed.

Lemma Atoi_fast_loop_digits (s : string) (n : Z) :
  all_digits s = true ->
  strconv.Atoi_fast_loop s n = (digits_value s n, None).
Proof.
  revert n. induction s as [|c s IH]; intros n Hd; simpl in *; [reflexivity|].
  apply andb_true_iff in Hd as [Hc Hs].
  rewrite fast_byte_test, Hc. simpl.
  rewrite Z.mod_small by (apply is_digit_bounds in Hc; lia).
  now apply IH.
Qed.

Lemma Atoi_fast_loop_bad (s : string) (n : Z) :
  all_digits s = false ->
  strconv.Atoi_fast_loop s n = (0, Some strconv.ErrSyntax).
Proof.
  revert n. induction s as [|c s IH]; intros n Hd; simpl in *; [discriminate|].
  rewrite fast_byte_test. destruct (is_digit c) eqn:Hc; simpl in *; [|reflexivity].
  now apply IH.
Qed.

Lemma digit_val_spec (c : ascii) :
  match strconv.digit_val c with
  | Some d => if is_digit c then d = strconv.byteZ c - 48 else 10 <= d
  | None => is_digit c = false
  end.
Proof.
  unfold strconv.digit_val, is_digit.
  destruct ((48 <=? strconv.byteZ c) && (strconv.byteZ c <=? 57)) eqn:Hd.
  - reflexivity.
  - destruct ((97 <=? strconv.lower c) && (strconv.lower c <=? 122)) eqn:Hl.
    + apply andb_true_iff in Hl as [Hl _]. apply Z.leb_le in Hl. lia.
    + reflexivity.
Qed.

(** The three ways the loop of [ParseUint] ends. *)
Lemma ParseUint_loop_cases (s : string) (n : Z) :
  0 <= n <= MaxUint64 ->
  (strconv.ParseUint_loop s n = (digits_value s n, None)
     /\ all_digits s = true /\ digits_value s n <= MaxUint64)
  \/ (strconv.ParseUint_loop s n = (0, Some strconv.ErrSyntax)
     /\ all_digits s = false)
  \/ (strconv.ParseUint_loop s n = (MaxUint64, Some strconv.ErrRange)
     /\ (all_digits s = true -> MaxUint64 < digits_value s n)).
Proof.
  revert n. induction s as [|c s IH]; intros n Hn.
  - left. simpl. repeat split; lia.
  - cbn [strconv.ParseUint_loop all_digits digits_value].
    pose proof (digit_val_spec c) as Hdv.
    destruct (strconv.digit_val c) as [d|]; [|right; left; now rewrite Hdv].
    destruct (is_digit c) eqn:Hc.
    2:{ right; left. apply Z.leb_le in Hdv. now rewrite Hdv. }
    subst d. pose proof (proj1 (is_digit_bounds c) Hc) as Hb.
    destruct (Z.leb_spec 10 (strconv.byteZ c - 48)); [lia|].
    simpl andb.
    destruct (Z.leb_spec strconv.cutoff10 n) as [Hcut|Hcut].
    { right; right. split; [reflexivity|]. intros Hs.
      pose proof (digits_value_ge s (n * 10 + (strconv.byteZ c - 48)) Hs).
      unfold strconv.cutoff10, MaxUint64, two64 in *.
      change ((18446744073709551616 - 1) / 10 + 1) with 1844674407370955162 in Hcut.
      lia. }
    unfold strconv.cutoff10, MaxUint64, two64 in Hcut.
    change ((18446744073709551616 - 1) / 10 + 1) with 1844674407370955162 in Hcut.
    destruct (Z_lt_le_dec (n * 10 + (strconv.byteZ c - 48)) two64) as [Hfit|Hover].
    + rewrite (Z.mod_small _ two64) by lia.
      destruct (Z.ltb_spec (n * 10 + (strconv.byteZ c - 48)) (n * 10)); [lia|].
      destruct (Z.ltb_spec MaxUint64 (n * 10 + (strconv.byteZ c - 48))) as [Hm|Hm];
        [unfold MaxUint64 in Hm; lia|].
      simpl orb. apply IH. lia.
    + assert ((n * 10 + (strconv.byteZ c - 48)) mod two64
              = n * 10 + (strconv.byteZ c - 48) - two64) as ->.
      { rewrite <- (Z_mod_plus_full _ (-1) two64).
        rewrite Z.mod_small; unfold two64 in *; lia. }
      destruct (Z.ltb_spec (n * 10 + (strconv.byteZ c - 48) - two64) (n * 10));
        [|unfold two64 in *; lia].
      simpl orb. right; right. split; [reflexivity|]. intros Hs.
      pose proof (digits_value_ge s (n * 10 + (strconv.byteZ c - 48)) Hs).
      unfold MaxUint64. lia.
Qed.

Lemma ParseUint_cases (s : string) :
  (strconv.ParseUint s = (digits_value s 0, None)
     /\ s <> "" /\ all_digits s = true /\ digits_value s 0 <= MaxUint64)
  \/ (strconv.ParseUint s = (0, Some strconv.ErrSyntax)
     /\ (s = "" \/ all_digits s = false))
  \/ (strconv.ParseUint s = (MaxUint64, Some strconv.ErrRange)
     /\ s <> "" /\ (all_digits s = true -> MaxUint64 < digits_value s 0)).
Proof.
  destruct s as [|c s].
  - right; left. simpl. auto.
  - change (strconv.ParseUint (String c s)) with (strconv.ParseUint_loop (String c s) 0).
    assert (0 <= 0 <= MaxUint64) as H0 by (unfold MaxUint64, two64; lia).
    destruct (ParseUint_loop_cases (String c s) 0 H0)
      as [(H1 & H2 & H3)|[(H1 & H2)|(H1 & H2)]].
    + left. repeat split; auto; discriminate.
    + right; left. auto.
    + right; right. repeat split; auto; discriminate.
Qed.

Lemma wrap64_neg_wrap (un : Z) :
  0 <= un <= two63 -> wrap64 (- wrap64 un) = - un.
Proof.
  intros H. replace (- wrap64 un) with (wrap64 un * -1) by ring.
  rewrite wrap64_mul_l. replace (un * -1) with (- un) by ring.
  apply wrap64_id.
  unfold in_int64, MinInt64, MaxInt64, two63 in *. lia.
Qed.

(** The three ways [ParseInt(s, 10, 0)] ends. *)
Lemma ParseInt_cases (s : string) :
  (strconv.ParseInt s = (decimal_value s, None)
     /\ decimal_integer s = true /\ in_int64 (decimal_value s))
  \/ (strconv.ParseInt s = (0, Some strconv.ErrSyntax)
     /\ decimal_integer s = false)
  \/ (exists v, strconv.ParseInt s = (v, Some strconv.ErrRange)
     /\ (v = MaxInt64 \/ v = MinInt64)
     /\ (decimal_integer s = true -> ~ in_int64 (decimal_value s))).
Proof.
  destruct s as [|c0 s']; [right; left; auto|].
  unfold strconv.ParseInt, decimal_integer, decimal_value, is_sign.
  destruct (Ascii.eqb_spec c0 "-"%char) as [->|Hm].
  - (* a minus sign *)
    change (Ascii.eqb "-" "+") with false. cbv beta iota zeta. simpl orb. simpl negb.
    cbv beta iota.
    destruct (ParseUint_cases s') as [(E & Hne & Hd & Hr)|[(E & Hbad)|(E & Hne & Hr)]];
      rewrite E; cbv beta iota.
    + pose proof (digits_value_ge s' 0 Hd ltac:(lia)) as H0.
      simpl andb. destruct (Z.ltb_spec two63 (digits_value s' 0)) as [Hbig|Hfit].
      * right; right. exists (- two63). split; [reflexivity|].
        split; [right; reflexivity|].
        intros _. unfold in_int64, MinInt64. lia.
      * left. rewrite wrap64_neg_wrap by lia. split; [reflexivity|].
        apply String.eqb_neq in Hne. rewrite Hne, Hd. split; [reflexivity|].
        unfold in_int64, MinInt64, MaxInt64, two63 in *. lia.
    + right; left. split; [reflexivity|].
      destruct Hbad as [->| ->]; [reflexivity|]. apply andb_false_r.
    + right; right. exists (- two63).
      simpl andb. change (two63 <? MaxUint64) with true. cbv iota.
      split; [reflexivity|]. split; [right; reflexivity|].
      apply String.eqb_neq in Hne. rewrite Hne. simpl. intros Hd.
      specialize (Hr Hd). unfold in_int64, MinInt64, MaxUint64, two64, two63 in *. lia.
  - destruct (Ascii.eqb_spec c0 "+"%char) as [->|Hp].
    + (* a plus sign *)
      cbv beta iota zeta. simpl orb. simpl negb. cbv beta iota.
      destruct (ParseUint_cases s') as [(E & Hne & Hd & Hr)|[(E & Hbad)|(E & Hne & Hr)]];
        rewrite E; cbv beta iota.
      * pose proof (digits_value_ge s' 0 Hd ltac:(lia)) as H0.
        simpl andb. destruct (Z.leb_spec two63 (digits_value s' 0)) as [Hbig|Hfit].
        -- right; right. exists (two63 - 1). split; [reflexivity|].
           split; [left; reflexivity|].
           intros _. unfold in_int64, MaxInt64. lia.
        -- left. rewrite wrap64_id
             by (unfold in_int64, MinInt64, MaxInt64, two63 in *; lia).
           split; [reflexivity|].
           apply String.eqb_neq in Hne. rewrite Hne, Hd. split; [reflexivity|].
           unfold in_int64, MinInt64, MaxInt64, two63 in *. lia.
      * right; left. split; [reflexivity|].
        destruct Hbad as [->| ->]; [reflexivity|]. apply andb_false_r.
      * right; right. exists (two63 - 1).
        simpl andb. change (two63 <=? MaxUint64) with true. cbv iota.
        split; [reflexivity|]. split; [left; reflexivity|].
        apply String.eqb_neq in Hne. rewrite Hne. simpl. intros Hd.
        specialize (Hr Hd). unfold in_int64, MaxInt64, MaxUint64, two64, two63 in *. lia.
    + (* no sign *)
      cbv beta iota zeta. simpl orb. simpl negb. cbv beta iota.
      destruct (ParseUint_cases (String c0 s'))
        as [(E & Hne & Hd & Hr)|[(E & Hbad)|(E & Hne & Hr)]];
        rewrite E; cbv beta iota.
      * pose proof (digits_value_ge (String c0 s') 0 Hd ltac:(lia)) as H0.
        rewrite ?andb_true_l.
        destruct (Z.leb_spec two63 (digits_value (String c0 s') 0)) as [Hbig|Hfit].
        -- right; right. exists (two63 - 1). split; [reflexivity|].
           split; [left; reflexivity|].
           intros _. unfold in_int64, MaxInt64. lia.
        -- left. rewrite wrap64_id
             by (unfold in_int64, MinInt64, MaxInt64, two63 in *; lia).
           split; [reflexivity|]. split; [exact Hd|].
           unfold in_int64, MinInt64, MaxInt64, two63 in *. lia.
      * right; left. split; [reflexivity|].
        destruct Hbad as [Hbad|Hbad]; [discriminate|exact Hbad].
      * right; right. exists (two63 - 1).
        rewrite ?andb_true_l. change (two63 <=? MaxUint64) with true. cbv iota.
        split; [reflexivity|]. split; [left; reflexivity|].
        intros Hd.
        specialize (Hr Hd). unfold in_int64, MaxInt64, MaxUint64, two64, two63 in *. lia.
Qed.

Lemma short_digits_in_int64 (s : string) :
  all_digits s = true -> (String.length s < 19)%nat ->
  0 <= digits_value s 0 < 10 ^ 18.
Proof.
  intros Hd Hlen. pose proof (digits_value_ge s 0 Hd ltac:(lia)).
  pose proof (digits_value_lt_pow s 0 Hd ltac:(lia)) as Hlt.
  assert (10 ^ Z.of_nat (String.length s) <= 10 ^ 18)
    by (apply Z.pow_le_mono_r; lia).
  lia.
Qed.

(** The three ways [Atoi] ends: the decimal value of a decimal integer
    that fits an [int]; 0 with a syntax error; or, for a string of 19 bytes
    or more only, a clamped bound with a range error. *)
Lemma Atoi_cases (s : string) :
  (strconv.Atoi s = (decimal_value s, None)
     /\ decimal_integer s = true /\ in_int64 (decimal_value s))
  \/ (strconv.Atoi s = (0, Some strconv.ErrSyntax)
     /\ decimal_integer s = false)
  \/ (exists v, strconv.Atoi s = (v, Some strconv.ErrRange)
     /\ (v = MaxInt64 \/ v = MinInt64)
     /\ (19 <= String.length s)%nat
     /\ (decimal_integer s = true -> ~ in_int64 (decimal_value s))).
Proof.
  unfold strconv.Atoi.
  destruct ((0 <? String.length s)%nat && (String.length s <? 19)%nat) eqn:Hfast.
  - (* the fast path *)
    apply andb_true_iff in Hfast as [Hpos Hlt].
    apply Nat.ltb_lt in Hpos, Hlt.
    destruct s as [|c0 s']; [simpl in Hpos; lia|].
    cbv zeta. fold (is_sign c0).
    unfold decimal_integer, decimal_value.
    destruct (is_sign c0) eqn:Hsign.
    + assert (Hc0 : is_sign c0 = true) by exact Hsign.
      unfold is_sign in Hc0. apply orb_true_iff in Hc0.
      destruct s' as [|c1 s'']; [right; left; split; reflexivity|].
      change (String.length (String c1 s'') <? 1)%nat with false.
      change (String.eqb (String c1 s'') "") with false.
      change (true && false) with false. change (negb false) with true.
      rewrite andb_true_l. cbv iota.
      simpl String.length in Hlt.
      destruct (all_digits (String c1 s'')) eqn:Hd.
      * rewrite (Atoi_fast_loop_digits _ _ Hd).
        pose proof (short_digits_in_int64 (String c1 s'') Hd
                      ltac:(simpl String.length; lia)) as Hr.
        left. split; [|split; [reflexivity|]].
        -- destruct (Ascii.eqb_spec c0 "-"%char) as [->|Hm]; [reflexivity|].
           destruct Hc0 as [Hc0|Hc0]; [discriminate|].
           apply Ascii.eqb_eq in Hc0. subst c0. reflexivity.
        -- unfold in_int64, MinInt64, MaxInt64, two63.
           destruct (Ascii.eqb c0 "-"%char); [|destruct (Ascii.eqb c0 "+"%char)];
             lia.
      * rewrite (Atoi_fast_loop_bad _ _ Hd). right; left. split; reflexivity.
    + assert (Hc0 : is_sign c0 = false) by exact Hsign.
      unfold is_sign in Hc0. apply orb_false_iff in Hc0 as [Hm Hp].
      rewrite andb_false_l. cbv iota. rewrite Hm, Hp.
      destruct (all_digits (String c0 s')) eqn:Hd.
      * rewrite (Atoi_fast_loop_digits _ _ Hd).
        pose proof (short_digits_in_int64 (String c0 s') Hd Hlt) as Hr.
        left. split; [reflexivity|]. split; [reflexivity|].
        unfold in_int64, MinInt64, MaxInt64, two63. lia.
      * rewrite (Atoi_fast_loop_bad _ _ Hd). right; left. split; reflexivity.
  - (* ParseInt *)
    destruct (ParseInt_cases s) as [H|[H|(v & E & Hv & Hr)]]; [left; exact H|right; left; exact H|].
    right; right. exists v. repeat split; auto.
    apply andb_false_iff in Hfast as [Hz|Hge].
    + apply Nat.ltb_ge in Hz. destruct s; [discriminate E|simpl in Hz; lia].
    + now apply Nat.ltb_ge in Hge.
Qed.

Lemma Atoi_ok (s : string) (n : Z) :
  strconv.Atoi s = (n, None) ->
  decimal_integer s = true /\ n = decimal_value s /\ in_int64 n.
Proof.
  intros E. destruct (Atoi_cases s) as [(E' & H1 & H2)|[(E' & _)|(v & E' & _)]];
    rewrite E in E'; inversion E'; subst; auto.
Qed.

Lemma Atoi_decimal (s : string) :
  decimal_integer s = true -> in_int64 (decimal_value s) ->
  strconv.Atoi s = (decimal_value s, None).
Proof.
  intros Hd Hr. destruct (Atoi_cases s) as [(E & _)|[(_ & H)|(v & _ & _ & _ & H)]].
  - exact E.
  - congruence.
  - now destruct (H Hd).
Qed.

Lemma Atoi_not_decimal (s : string) :
  decimal_integer s = false -> snd (strconv.Atoi s) <> None.
Proof.
  intros Hd. destruct (Atoi_cases s) as [(_ & H & _)|[(E & _)|(v & E & _)]];
    [congruence| |]; rewrite E; discriminate.
Qed.


Lemma Split_nonempty (s : string) (sep : ascii) : strings.Split s sep <> [].
Proof.
  destruct s as [|c s]; simpl; [discriminate|].
  destruct (Ascii.eqb c sep); [discriminate|].
  destruct (strings.Split s sep); discriminate.
Qed.

Lemma Split_no_sep (s : string) (sep : ascii) :
  has_byte sep s = false -> strings.Split s sep = [s].
Proof.
  induction s as [|c s IH]; simpl; intros H; [reflexivity|].
  apply orb_false_iff in H as [Hc Hs]. rewrite Hc, (IH Hs). reflexivity.
Qed.

Lemma Split_app (a b : string) (sep : ascii) :
  has_byte sep a = false ->
  strings.Split (a ++ String sep b) sep = a :: strings.Split b sep.
Proof.
  induction a as [|c a IH]; simpl; intros H.
  - now rewrite Ascii.eqb_refl.
  - apply orb_false_iff in H as [Hc Hs]. rewrite Hc, (IH Hs). reflexivity.
Qed.

Lemma digits_no_dot (s : string) :
  all_digits s = true -> has_byte "."%char s = false.
Proof.
  induction s as [|c s IH]; simpl; intros H; [reflexivity|].
  apply andb_true_iff in H as [Hc Hs]. rewrite (IH Hs), orb_false_r.
  destruct (Ascii.eqb_spec c "."%char) as [->|]; [discriminate Hc|reflexivity].
Qed.

Lemma buildVersion_fold (segs : list string) (acc acc' : Z) :
  wrap64 acc = wrap64 acc' ->
  wrap64 (fold_left buildVersion_step segs acc)
  = wrap64 (fold_left (fun a x => a * 1000 + x) (map segment_value segs) acc').
Proof.
  revert acc acc'. induction segs as [|seg segs IH]; intros acc acc' H; simpl.
  - exact H.
  - apply IH. unfold buildVersion_step, segment_value.
    rewrite wrap64_idem, wrap64_add_l.
    rewrite <- (wrap64_add_l (acc * 1000)), <- (wrap64_add_l (acc' * 1000)).
    rewrite <- (wrap64_mul_l acc), <- (wrap64_mul_l acc'), H. reflexivity.
Qed.

Lemma buildVersion_formula (v : string) :
  buildVersion v
  = wrap64 (accumulate_base1000 (map segment_value (strings.Split v "."%char))
            * version_scale (length (strings.Split v "."%char))).
Proof.
  unfold buildVersion, accumulate_base1000, version_scale.
  set (segs := strings.Split v "."%char).
  pose proof (buildVersion_fold segs 0 0 eq_refl) as H.
  destruct (length segs =? 2)%nat;
    rewrite <- wrap64_mul_l, H, wrap64_mul_l; reflexivity.
Qed.

Lemma segment_value_digits (s : string) :
  all_digits s = true -> s <> "" -> (String.length s < 19)%nat ->
  segment_value s = digits_value s 0.
Proof.
  intros Hd Hne Hlen. unfold segment_value.
  pose proof (short_digits_in_int64 s Hd Hlen) as Hr.
  destruct s as [|c s']; [contradiction|].
  assert (Hsign : is_sign c = false).
  { destruct (is_sign c) eqn:E; [|reflexivity]. apply sign_not_digit in E.
    simpl in Hd. rewrite E in Hd. discriminate. }
  assert (Hv : decimal_value (String c s') = digits_value (String c s') 0).
  { unfold is_sign in Hsign. apply orb_false_iff in Hsign as [Hm Hp].
    unfold decimal_value. now rewrite Hm, Hp. }
  rewrite Atoi_decimal.
  - simpl fst. exact Hv.
  - unfold decimal_integer. now rewrite Hsign.
  - rewrite Hv. unfold in_int64, MinInt64, MaxInt64, two63. lia.
Qed.


Lemma buildVersion_three_segments (sa sb sc : string) :
  has_byte "."%char sa = false -> has_byte "."%char sb = false ->
  has_byte "."%char sc = false ->
  buildVersion (sa ++ String "."%char (sb ++ String "."%char sc))%string
  = wrap64 (((1000 * segment_value sa + segment_value sb) * 1000 + segment_value sc)
            * 1000000).
Proof.
  intros Ha Hb Hc.
  rewrite buildVersion_formula, (Split_app _ _ _ Ha), (Split_app _ _ _ Hb),
    (Split_no_sep _ _ Hc).
  unfold accumulate_base1000, version_scale. simpl. f_equal. ring.
Qed.


(** Runs the primitives of the monad. *)
Ltac run_m :=
  cbv [mbind M_bind mret M_ret get_flags put_flags emit halt get_listeners
       new_listener append_listener log_Println log_Fatal os_Exit
       flags listeners heap trace].

Lemma for_range_map {A B} (g : A -> B) (xs : list A) (body : B -> M unit) :
  for_range (map g xs) body = for_range xs (fun x => body (g x)).
Proof. induction xs as [|x xs IH]; simpl; [reflexivity|]. now rewrite IH. Qed.

Lemma for_range_app {A} (xs ys : list A) (body : A -> M unit) (p : Proc) :
  for_range (xs ++ ys) body p = (for_range xs body ;; for_range ys body) p.
Proof.
  revert p. induction xs as [|x xs IH]; intros p; simpl.
  - reflexivity.
  - unfold mbind, M_bind in *. destruct (body x p); [apply IH|reflexivity].
Qed.

Lemma startPointListeners_items (service : WavefrontAPIService)
    (portsList : string) (builder : DecoderBuilder) :
  startPointListeners service portsList builder
  = for_range (map (fun s => (s, builder)) (strings.Split portsList ","%char))
      (start_item service).
Proof. unfold startPointListeners. now rewrite for_range_map. Qed.

Lemma after_listeners_nil (service : WavefrontAPIService) (p : Proc) :
  after_listeners service p [] = p.
Proof.
  destruct p. unfold after_listeners. simpl.
  now rewrite !app_nil_r, Nat.add_0_r.
Qed.

Lemma after_listeners_cons (service : WavefrontAPIService) (p : Proc)
    (l : PointListener) (ls : list PointListener) :
  after_listeners service (after_listeners service p [l]) ls
  = after_listeners service p (l :: ls).
Proof.
  unfold after_listeners. simpl. f_equal.
  - now rewrite <- app_assoc.
  - lia.
  - now rewrite <- app_assoc.
Qed.

(** The loop of [startPointListeners] over any items: it starts one
    listener per entry up to the first entry [Atoi] rejects, where it dies. *)
Lemma start_items_spec (service : WavefrontAPIService)
    (items : list (string * DecoderBuilder)) (p : Proc) :
  for_range items (start_item service) p
  = match first_bad items with
    | None =>
        Done tt (after_listeners service p (make_listeners (heap p) items))
    | Some s =>
        Halted (LogFatal ("Invalid port " ++ s))
          (after_listeners service p
             (make_listeners (heap p) (good_prefix items)))
    end.
Proof.
  revert p. induction items as [|[s b] items IH]; intros p.
  - simpl. now rewrite after_listeners_nil.
  - cbn [for_range first_bad good_prefix make_listeners].
    unfold port_ok, mbind, M_bind. unfold start_item at 1. cbn [fst snd].
    destruct (strconv.Atoi s) as [port [e|]] eqn:E; cbn [fst snd].
    + unfold log_Fatal, halt. now rewrite after_listeners_nil.
    + destruct p as [f ls h tr]. unfold startPointListener. run_m.
      rewrite IH. cbn [heap].
      assert (Hp : mkProc f (ls ++ [mkListener h port b]) (S h)
                     (tr ++ [ListenerStart (mkListener h port b)
                        (fFlushThreadsPtr f) (fFlushIntervalPtr f)
                        (fMaxBufferSizePtr f) (fFlushMaxPointsPtr f)
                        FormatGraphiteV2 GraphiteBlockWorkUnit service])
                   = after_listeners service (mkProc f ls h tr)
                       [mkListener h port b]).
      { unfold after_listeners. simpl. f_equal. lia. }
      rewrite Hp.
      destruct (first_bad items); rewrite after_listeners_cons;
        cbn [make_listeners]; rewrite ?E; reflexivity.
Qed.

Lemma start_items_flags (service : WavefrontAPIService)
    (items : list (string * DecoderBuilder)) (p : Proc) :
  flags (final (for_range items (start_item service) p)) = flags p.
Proof. rewrite start_items_spec. now destruct (first_bad items). Qed.

Lemma startListeners_items (service : WavefrontAPIService) (p : Proc) :
  startListeners service p
  = for_range (plan (flags p)) (start_item service) p.
Proof.
  unfold startListeners, plan, entries.
  rewrite for_range_app.
  destruct p as [f ls h tr]. run_m.
  destruct (String.eqb (fWavefrontPortsPtr f) "") eqn:Ew; cbn [negb map for_range].
  - destruct (String.eqb (fOpenTSDBPortsPtr f) ""); cbn [negb map for_range];
      rewrite ?startPointListeners_items; reflexivity.
  - rewrite startPointListeners_items.
    pose proof (start_items_flags service
                  (map (fun s => (s, GraphiteBuilder))
                       (strings.Split (fWavefrontPortsPtr f) ","%char))
                  (mkProc f ls h tr)) as Hf.
    destruct (for_range _ (start_item service) (mkProc f ls h tr)) as [[] p'|];
      [|reflexivity].
    simpl in Hf. destruct p' as [f' ls' h' tr']. simpl in Hf. subst f'.
    destruct (String.eqb (fOpenTSDBPortsPtr f) ""); cbn [negb map for_range];
      rewrite ?startPointListeners_items; reflexivity.
Qed.

(** [startListeners] starts one listener per planned entry, in order, up
    to the first entry [Atoi] rejects, where [log.Fatal] ends the process. *)
Lemma startListeners_spec (service : WavefrontAPIService) (p : Proc) :
  startListeners service p
  = match first_bad (plan (flags p)) with
    | None =>
        Done tt (after_listeners service p
                   (make_listeners (heap p) (plan (flags p))))
    | Some s =>
        Halted (LogFatal ("Invalid port " ++ s))
          (after_listeners service p
             (make_listeners (heap p) (good_prefix (plan (flags p)))))
    end.
Proof. rewrite startListeners_items. apply start_items_spec. Qed.

Lemma started_app (t1 t2 : list Event) :
  started (t1 ++ t2) = (started t1 ++ started t2)%list.
Proof. unfold started. apply omap_app. Qed.

Lemma stopped_app (t1 t2 : list Event) :
  stopped (t1 ++ t2) = (stopped t1 ++ stopped t2)%list.
Proof. unfold stopped. apply omap_app. Qed.

Lemma started_start_events (f : Flags) (service : WavefrontAPIService)
    (ls : list PointListener) :
  started (map (start_event f service) ls) = ls.
Proof. induction ls as [|l ls IH]; simpl; [reflexivity|]. now rewrite IH. Qed.

Lemma stopped_start_events (f : Flags) (service : WavefrontAPIService)
    (ls : list PointListener) :
  stopped (map (start_event f service) ls) = [].
Proof. induction ls as [|l ls IH]; simpl; [reflexivity|]. exact IH. Qed.

Lemma started_pre_events (w : World) (f : Flags) : started (pre_events w f) = [].
Proof. unfold pre_events. now destruct (String.eqb (fPprofAddr f) ""). Qed.

Lemma stopped_pre_events (w : World) (f : Flags) : stopped (pre_events w f) = [].
Proof. unfold pre_events. now destruct (String.eqb (fPprofAddr f) ""). Qed.

Ltac norm_flags :=
  cbn [fCfgPtr fTokenPtr fServerPtr fHostnamePtr fWavefrontPortsPtr fOpenTSDBPortsPtr
       fFlushThreadsPtr fFlushIntervalPtr fFlushMaxPointsPtr fMaxBufferSizePtr fIdFilePtr
       fLogFilePtr fPprofAddr fVersionPtr from_config set_hostname negb] in *.

(** Destructs, in hypothesis [H], the conditions a run branches on. *)
Ltac branch_in H :=
  repeat (cbv [mbind M_bind mret M_ret get_flags put_flags emit halt
               get_listeners new_listener append_listener log_Println
               log_Fatal os_Exit flags listeners heap trace] in H;
          norm_flags;
          match type of H with
          | context [if negb ?b then _ else _] => destruct b eqn:?
          | context [if ?b then _ else _] => destruct b eqn:?
          | context [match ?x with inl _ => _ | inr _ => _ end] =>
              destruct x eqn:?
          | context [match ?x with Some _ => _ | None => _ end] =>
              destruct x eqn:?
          end).

(** Rewrites the goal with the equations the branching left. *)
Ltac use_eqs :=
  repeat match goal with
         | E : ?x = _ |- context [?x] => rewrite E
         end.

(** When [checkFlags] returns, no check failed; it touched only the flags
    and never a listener. *)
Lemma checkFlags_Done (w : World) (p p' : Proc) :
  checkFlags w p = Done tt p' ->
  fVersionPtr (flags p) = false
  /\ (exists eff : Flags,
        effective_of w (flags p) = Some eff
        /\ fTokenPtr eff <> "" /\ fServerPtr eff <> ""
        /\ hostnamed w eff = Some (flags p')
        /\ logger_ok w eff = true)
  /\ listeners p' = listeners p /\ heap p' = heap p
  /\ started (trace p') = started (trace p)
  /\ stopped (trace p') = stopped (trace p).
Proof.
  destruct p as [f ls h tr].
  unfold checkFlags, parseCfg, checkRequiredFlag, checkHostname, setupLogger.
  intros H. branch_in H; try discriminate H; inversion H; subst; clear H;
    cbn [flags listeners heap trace];
    rewrite ?started_app, ?stopped_app, ?app_nil_r;
    (split; [assumption|]);
    (split; [|repeat split; reflexivity]);
    unfold effective_of, hostnamed, logger_ok; use_eqs;
    eexists; (split; [reflexivity|]); norm_flags; use_eqs;
    repeat split; try reflexivity; try (apply String.eqb_neq; assumption).
Qed.

(** When [checkFlags] does not return, the process has ended for one of
    its five reasons, and no listener was touched. *)
Lemma checkFlags_Halted (w : World) (p p' : Proc) (h : Halt) :
  checkFlags w p = Halted h p' ->
  terminated h
  /\ (fVersionPtr (flags p) = true
      \/ effective_of w (flags p) = None
      \/ exists eff : Flags,
           effective_of w (flags p) = Some eff
           /\ (fTokenPtr eff = "" \/ fServerPtr eff = ""
               \/ hostnamed w eff = None \/ logger_ok w eff = false))
  /\ listeners p' = listeners p /\ heap p' = heap p
  /\ started (trace p') = started (trace p)
  /\ stopped (trace p') = stopped (trace p).
Proof.
  destruct p as [f ls hp tr].
  unfold checkFlags, parseCfg, checkRequiredFlag, checkHostname, setupLogger.
  intros H. branch_in H; try discriminate H; inversion H; subst; clear H;
    cbn [flags listeners heap trace];
    rewrite ?started_app, ?stopped_app, ?app_nil_r;
    (split; [discriminate|]);
    (split; [|repeat split; reflexivity]);
    unfold effective_of, hostnamed, logger_ok; use_eqs;
    first [ left; reflexivity
          | right; left; reflexivity
          | right; right; eexists; split; [reflexivity|]; norm_flags; use_eqs;
            first [ left; apply String.eqb_eq; assumption
                  | right; left; apply String.eqb_eq; assumption
                  | right; right; left; reflexivity
                  | right; right; right; reflexivity ] ].
Qed.

Lemma checkFlags_ok (w : World) (p : Proc) (eff f' : Flags) :
  fVersionPtr (flags p) = false ->
  effective_of w (flags p) = Some eff ->
  fTokenPtr eff <> "" -> fServerPtr eff <> "" ->
  hostnamed w eff = Some f' -> logger_ok w eff = true ->
  exists p', checkFlags w p = Done tt p' /\ flags p' = f'
             /\ listeners p' = listeners p /\ heap p' = heap p
             /\ started (trace p') = started (trace p)
             /\ stopped (trace p') = stopped (trace p).
Proof.
  intros Hv He Ht Hs Hh Hl.
  destruct (checkFlags w p) as [[] p'|h p'] eqn:E.
  - apply checkFlags_Done in E as (_ & (eff' & He' & _ & _ & Hh' & _) & R).
    exists p'. split; [reflexivity|]. split; [congruence|exact R].
  - apply checkFlags_Halted in E as (_ & [Hv'|[He'|(eff' & He' & Hbad)]] & _);
      [congruence|congruence|].
    assert (eff' = eff) by congruence. subst eff'.
    destruct Hbad as [?|[?|[?|?]]]; congruence.
Qed.

(** [startup] is [checkFlags], the events of [pre_events], then
    [startListeners] on the service built from the checked flags. *)
Lemma startup_spec (w : World) (p : Proc) :
  startup w p
  = match checkFlags w p with
    | Halted h p' => Halted h p'
    | Done _ p1 =>
        startListeners (service_of w (flags p1))
          (mkProc (flags p1) (listeners p1) (heap p1)
                  (trace p1 ++ pre_events w (flags p1)))
    end.
Proof.
  unfold startup. unfold mbind at 1. unfold M_bind at 1.
  destruct (checkFlags w p) as [[] [f1 ls1 h1 tr1]|]; [|reflexivity].
  unfold initAgent, pre_events, service_of. run_m.
  destruct (String.eqb (fPprofAddr f1) ""); cbn [negb]; run_m;
    rewrite <- ?app_assoc; reflexivity.
Qed.

Lemma port_ok_valid (s : string) : port_ok s = true <-> valid_entry s.
Proof.
  unfold port_ok, valid_entry.
  destruct (Atoi_cases s) as [(E & H1 & H2)|[(E & H)|(v & E & _ & _ & H)]];
    rewrite E; simpl; split; try discriminate; auto.
  - intros [Hd _]. congruence.
  - intros [Hd Hr]. now destruct (H Hd).
Qed.


Lemma port_not_decimal (s : string) : decimal_integer s = false -> port_ok s = false.
Proof.
  intros H. destruct (port_ok s) eqn:E; [|reflexivity].
  apply port_ok_valid in E as [Hd _]. congruence.
Qed.

Lemma first_bad_None (items : list (string * DecoderBuilder)) :
  first_bad items = None <-> Forall (fun it => valid_entry (fst it)) items.
Proof.
  induction items as [|[s b] items IH]; simpl.
  - split; auto.
  - destruct (port_ok s) eqn:E.
    + rewrite IH. split.
      * intros H. constructor; [now apply port_ok_valid|exact H].
      * intros H. now inversion H.
    + split; [discriminate|]. intros H. inversion H as [|? ? Hv _]; subst.
      apply port_ok_valid in Hv. simpl in Hv. congruence.
Qed.

Lemma good_prefix_take (items : list (string * DecoderBuilder)) :
  good_prefix items = take (length (good_prefix items)) items.
Proof.
  induction items as [|[s b] items IH]; simpl; [reflexivity|].
  destruct (port_ok s); simpl; [|reflexivity]. now rewrite <- IH.
Qed.

Lemma good_prefix_valid (items : list (string * DecoderBuilder)) :
  Forall (fun it => valid_entry (fst it)) (good_prefix items).
Proof.
  induction items as [|[s b] items IH]; simpl; [constructor|].
  destruct (port_ok s) eqn:E; constructor; [now apply port_ok_valid|exact IH].
Qed.

Lemma good_prefix_all (items : list (string * DecoderBuilder)) :
  first_bad items = None -> good_prefix items = items.
Proof.
  induction items as [|[s b] items IH]; simpl; [reflexivity|].
  destruct (port_ok s); [|discriminate]. intros H. now rewrite IH.
Qed.

Lemma make_listeners_length (base : nat) (items : list (string * DecoderBuilder)) :
  length (make_listeners base items) = length items.
Proof.
  revert base. induction items as [|[s b] items IH]; intros base; simpl;
    [reflexivity|]. now rewrite IH.
Qed.



Lemma make_listeners_app (base : nat) (xs ys : list (string * DecoderBuilder)) :
  make_listeners base (xs ++ ys)
  = (make_listeners base xs ++ make_listeners (base + length xs) ys)%list.
Proof.
  revert base. induction xs as [|[s b] xs IH]; intros base; simpl.
  - now rewrite Nat.add_0_r.
  - rewrite IH. do 3 f_equal. lia.
Qed.


Lemma hostnamed_keeps (w : World) (eff f' : Flags) :
  hostnamed w eff = Some f' ->
  plan f' = plan eff
  /\ fTokenPtr f' = fTokenPtr eff /\ fServerPtr f' = fServerPtr eff
  /\ fFlushThreadsPtr f' = fFlushThreadsPtr eff
  /\ fFlushIntervalPtr f' = fFlushIntervalPtr eff
  /\ fMaxBufferSizePtr f' = fMaxBufferSizePtr eff
  /\ fFlushMaxPointsPtr f' = fFlushMaxPointsPtr eff.
Proof.
  unfold hostnamed. intros H.
  destruct (String.eqb (fHostnamePtr eff) ""); [destruct (os_Hostname w)|];
    inversion H; subst; repeat split; reflexivity.
Qed.

(** ** Startup: configuration errors and listeners *)

Lemma after_listeners_started (service : WavefrontAPIService) (p : Proc)
    (ls : list PointListener) :
  started (trace (after_listeners service p ls)) = (started (trace p) ++ ls)%list.
Proof.
  unfold after_listeners. cbn [trace].
  now rewrite started_app, started_start_events.
Qed.

Lemma after_listeners_stopped (service : WavefrontAPIService) (p : Proc)
    (ls : list PointListener) :
  stopped (trace (after_listeners service p ls)) = stopped (trace p).
Proof.
  unfold after_listeners. cbn [trace].
  now rewrite stopped_app, stopped_start_events, app_nil_r.
Qed.

(** A run of [startup] from the start state, in full: either [checkFlags]
    ends the process with no listener started, or the listeners of the
    valid prefix of the plan are started and [startup] returns exactly when
    the whole plan is valid. *)
Lemma startup_run (w : World) :
  (exists h p, startup w (start_state w) = Halted h p /\ terminated h
     /\ started (trace p) = [] /\ stopped (trace p) = []
     /\ (fVersionPtr (flag_Parse w) = true
         \/ effective_flags w = None
         \/ exists eff, effective_flags w = Some eff
              /\ (fTokenPtr eff = "" \/ fServerPtr eff = ""
                  \/ hostnamed w eff = None \/ logger_ok w eff = false)))
  \/ (exists eff f' p,
        fVersionPtr (flag_Parse w) = false
        /\ effective_flags w = Some eff
        /\ fTokenPtr eff <> "" /\ fServerPtr eff <> ""
        /\ hostnamed w eff = Some f' /\ logger_ok w eff = true
        /\ flags p = f'
        /\ listeners p = make_listeners 0 (good_prefix (plan eff))
        /\ started (trace p) = listeners p
        /\ stopped (trace p) = []
        /\ Forall (fun e => match e with
                            | ListenerStart l _ _ _ _ _ _ _ =>
                                e = start_event f' (service_of w f') l
                            | _ => True
                            end) (trace p)
        /\ In (AgentInit (agent_CreateOrGetAgentId w (fIdFilePtr f')) (fServerPtr f')
                 (service_of w f')) (trace p)
        /\ match first_bad (plan eff) with
           | None => startup w (start_state w) = Done tt p
           | Some s =>
               startup w (start_state w)
               = Halted (LogFatal ("Invalid port " ++ s)) p
           end).
Proof.
  rewrite startup_spec. unfold effective_flags.
  change (flag_Parse w) with (flags (start_state w)).
  destruct (checkFlags w (start_state w)) as [[] p1|h p1] eqn:E.
  - right.
    apply checkFlags_Done in E
      as (Hv & (eff & He & Ht & Hs & Hh & Hl) & Hls & Hheap & Hst & Hsp).
    simpl in Hls, Hheap, Hst, Hsp.
    destruct (hostnamed_keeps _ _ _ Hh) as (Hplan & _).
    rewrite startListeners_spec. cbn [flags heap]. rewrite Hplan, Hheap.
    set (p2 := mkProc (flags p1) (listeners p1) 0 (trace p1 ++ pre_events w (flags p1))).
    exists eff, (flags p1),
      (after_listeners (service_of w (flags p1)) p2
         (make_listeners 0 (good_prefix (plan eff)))).
    repeat (split; [assumption || reflexivity|]).
    split; [cbn; now rewrite Hls|].
    split.
    { rewrite after_listeners_started. subst p2. cbn [trace listeners after_listeners].
      now rewrite started_app, Hst, started_pre_events, Hls. }
    split.
    { rewrite after_listeners_stopped. subst p2. cbn [trace].
      now rewrite stopped_app, Hsp, stopped_pre_events. }
    split.
    { unfold after_listeners. subst p2. cbn [trace flags].
      rewrite !Forall_app. split; [split|].
      - apply Forall_forall. intros e He'.
        destruct e; try exact I.
        assert (Hin : In l (started (trace p1))).
        { unfold started. apply list_elem_of_In, list_elem_of_omap.
          eexists. split; [exact He'|reflexivity]. }
        rewrite Hst in Hin. destruct Hin.
      - unfold pre_events. destruct (String.eqb (fPprofAddr (flags p1)) "");
          repeat constructor.
      - apply Forall_forall. intros e He'.
        apply list_elem_of_In, in_map_iff in He' as (l & <- & _).
        reflexivity. }
    split.
    { unfold after_listeners. subst p2. cbn [trace].
      apply in_or_app. left. apply in_or_app. right.
      unfold pre_events. apply in_or_app. right. apply in_or_app. right.
      left. reflexivity. }
    destruct (first_bad (plan eff)) eqn:Hfb; [reflexivity|].
    now rewrite (good_prefix_all _ Hfb).
  - left. apply checkFlags_Halted in E as (Ht & Hwhy & _ & _ & Hst & Hsp).
    exists h, p1. repeat (split; [assumption || reflexivity|]). exact Hwhy.
Qed.

(** [startup], in the main goroutine, against the effective configuration
    [eff]: an empty token or server ends it with no listener started; an
    entry that is not a decimal integer ends it with the listeners of an
    initial run of valid entries started; with everything valid, the
    version flag unset, the hostname set or resolved and the log file
    created, it returns with one listener started per entry. *)
Lemma startup_outcomes (w : World) (eff : Flags) :
  effective_flags w = Some eff ->
  (fTokenPtr eff = "" \/ fServerPtr eff = "" ->
   exists h p, startup w (start_state w) = Halted h p /\ terminated h
               /\ started (trace p) = [])
  /\ (Exists (fun it => decimal_integer (fst it) = false) (plan eff) ->
      exists h p k, startup w (start_state w) = Halted h p /\ terminated h
        /\ started (trace p) = make_listeners 0 (take k (plan eff))
        /\ Forall (fun it => valid_entry (fst it)) (take k (plan eff)))
  /\ (fTokenPtr eff <> "" -> fServerPtr eff <> "" ->
      Forall (fun it => valid_entry (fst it)) (plan eff) ->
      fVersionPtr (flag_Parse w) = false ->
      hostnamed w eff <> None -> logger_ok w eff = true ->
      exists p, startup w (start_state w) = Done tt p
                /\ started (trace p) = make_listeners 0 (plan eff)).
Proof.
  intros He.
  destruct (startup_run w)
    as [(h & p & E & Ht & Hst & _ & Hwhy)
       |(eff' & f' & p & Hv & He' & Htok & Hsrv & Hh & Hl & _ & Hls & Hst & _ & _ & _ & E)].
  - (* [checkFlags] ended the process *)
    split; [|split].
    + intros _. exists h, p. auto.
    + intros _. exists h, p, 0%nat. rewrite take_0. simpl. auto.
    + intros Htok Hsrv _ Hv Hh Hl.
      destruct Hwhy as [Hv'|[He'|(eff' & He' & Hbad)]]; [congruence|congruence|].
      assert (eff' = eff) by congruence. subst eff'.
      destruct Hbad as [?|[?|[?|?]]]; congruence.
  - (* [checkFlags] returned *)
    assert (eff' = eff) by congruence. subst eff'.
    split; [|split].
    + intros [?|?]; contradiction.
    + intros Hex. destruct (first_bad (plan eff)) as [s|] eqn:Hfb.
      * exists (LogFatal ("Invalid port " ++ s)), p, (length (good_prefix (plan eff))).
        rewrite <- good_prefix_take. repeat split; auto.
        -- discriminate.
        -- congruence.
        -- apply good_prefix_valid.
      * apply first_bad_None in Hfb. exfalso.
        apply Exists_exists in Hex as (it & Hin & Hbad).
        rewrite Forall_forall in Hfb. destruct (Hfb it Hin) as [Hd _]. congruence.
    + intros _ _ Hall _ _ _. apply first_bad_None in Hall.
      rewrite Hall in E. exists p. split; [exact E|].
      rewrite Hst, Hls. now rewrite (good_prefix_all _ Hall).
Qed.


Lemma with_events_nil (p : Proc) : with_events p [] = p.
Proof. destruct p. unfold with_events. simpl. now rewrite app_nil_r. Qed.

Lemma with_events_app (p : Proc) (e1 e2 : list Event) :
  with_events (with_events p e1) e2 = with_events p (e1 ++ e2).
Proof. unfold with_events. simpl. now rewrite app_assoc. Qed.

Lemma stop_loop_spec (ls : list PointListener) (p : Proc) :
  for_range ls (fun listener => emit (ListenerStop listener)) p
  = Done tt (with_events p (map ListenerStop ls)).
Proof.
  revert p. induction ls as [|l ls IH]; intros p.
  - simpl. now rewrite with_events_nil.
  - cbn [for_range map]. unfold mbind, M_bind.
    change (emit (ListenerStop l) p) with (Done tt (with_events p [ListenerStop l])).
    cbv iota beta. rewrite IH, with_events_app. reflexivity.
Qed.

Lemma stopListeners_spec (p : Proc) :
  stopListeners p = Done tt (with_events p (map ListenerStop (listeners p))).
Proof.
  unfold stopListeners, mbind, M_bind, get_listeners. apply stop_loop_spec.
Qed.

(** [waitForShutdown]: the signals before the first interrupt are received
    and ignored; on the interrupt the process logs, stops the listeners of
    the [listeners] slice in order, and exits with status 0. *)
Lemma waitForShutdown_loop_spec (sigs : list Signal) (p : Proc) :
  waitForShutdown_loop sigs p
  = if has_interrupt sigs then
      Halted (OsExit 0)
        (with_events p
           (map SignalReceived (before_interrupt sigs)
            ++ [SignalReceived Interrupt; LogPrint "Stopping Wavefront Proxy"]
            ++ map ListenerStop (listeners p)))
    else Halted Parked (with_events p (map SignalReceived sigs)).
Proof.
  revert p. induction sigs as [|sig sigs IH]; intros p.
  - simpl. now rewrite with_events_nil.
  - cbn [waitForShutdown_loop has_interrupt before_interrupt map].
    unfold mbind at 1. unfold M_bind at 1.
    change (emit (SignalReceived sig) p)
      with (Done tt (with_events p [SignalReceived sig])).
    cbv iota beta. destruct sig as [|n].
    + unfold mbind, M_bind, log_Println, os_Exit, halt.
      change (emit (LogPrint "Stopping Wavefront Proxy")
                (with_events p [SignalReceived Interrupt]))
        with (Done (A:=unit) tt (with_events (with_events p [SignalReceived Interrupt])
                         [LogPrint "Stopping Wavefront Proxy"])).
      cbv iota beta. rewrite stopListeners_spec.
      rewrite !with_events_app. reflexivity.
    + rewrite IH. cbn [listeners with_events].
      destruct (has_interrupt sigs); rewrite with_events_app; reflexivity.
Qed.

Lemma has_interrupt_In (sigs : list Signal) :
  In Interrupt sigs -> has_interrupt sigs = true.
Proof.
  induction sigs as [|[|n] sigs IH]; simpl; intros H; auto.
  destruct H as [H|H]; [discriminate|auto].
Qed.


Lemma stopped_signals (sigs : list Signal) : stopped (map SignalReceived sigs) = [].
Proof. induction sigs; simpl; auto. Qed.

Lemma started_signals (sigs : list Signal) : started (map SignalReceived sigs) = [].
Proof. induction sigs; simpl; auto. Qed.


Lemma started_stops (ls : list PointListener) : started (map ListenerStop ls) = [].
Proof. induction ls; simpl; auto. Qed.


Lemma ListenerStart_started (tr : list Event) (l : PointListener)
    (a b c d : Z) (fmt wu : ApiConst) (svc : WavefrontAPIService) :
  In (ListenerStart l a b c d fmt wu svc) tr -> In l (started tr).
Proof.
  intros H. unfold started. apply list_elem_of_In, list_elem_of_omap.
  eexists. split; [apply list_elem_of_In; exact H|reflexivity].
Qed.

Lemma main_trace (w : World) :
  exists p evs,
    (startup w (start_state w) = Done tt p
     \/ exists h, startup w (start_state w) = Halted h p)
    /\ trace (final (run_main w)) = (trace p ++ evs)%list
    /\ started evs = [].
Proof.
  unfold run_main, main, waitForShutdown, mbind, M_bind.
  destruct (startup w (start_state w)) as [[] p|h p] eqn:E.
  - rewrite waitForShutdown_loop_spec.
    destruct (has_interrupt (signals w)); eexists p, _;
      (split; [left; reflexivity|]); (split; [reflexivity|]);
      rewrite ?started_app, ?started_signals, ?started_stops; reflexivity.
  - exists p, []. split; [right; eauto|]. simpl. now rewrite app_nil_r.
Qed.

(** Every [Start] call of the main goroutine passes the four values of
    the effective configuration, then the two constants. *)
Lemma run_starts_use_configuration (w : World) (e : Event) :
  In e (trace (final (run_main w))) ->
  match e with
  | ListenerStart _ _ _ _ _ _ _ _ =>
      exists eff, effective_flags w = Some eff /\ start_uses eff e
  | _ => True
  end.
Proof.
  intros Hin. destruct e; try exact I.
  destruct (main_trace w) as (p & evs & Hp & Htr & Hev).
  rewrite Htr in Hin. apply in_app_or in Hin as [Hin|Hin].
  2:{ apply ListenerStart_started in Hin. rewrite Hev in Hin. destruct Hin. }
  destruct (startup_run w)
    as [(h & p' & E' & _ & Hst & _)
       |(eff & f' & p' & _ & He & _ & _ & Hh & _ & _ & _ & _ & _ & Hall & _ & E')].
  - assert (p' = p) by (destruct Hp as [Hp|[h' Hp]]; congruence). subst p'.
    apply ListenerStart_started in Hin. rewrite Hst in Hin. destruct Hin.
  - assert (p' = p).
    { destruct (first_bad (plan eff)); destruct Hp as [Hp|[h' Hp]]; congruence. }
    subst p'. exists eff. split; [exact He|].
    rewrite Forall_forall in Hall.
    specialize (Hall _ (proj2 (list_elem_of_In _ _) Hin)). cbv beta iota in Hall.
    destruct (hostnamed_keeps _ _ _ Hh) as (_ & _ & _ & H1 & H2 & H3 & H4).
    unfold start_event in Hall. inversion Hall; subst.
    unfold start_uses. rewrite H1, H2, H3, H4. repeat split.
Qed.

(** C10.  [checkHostname]: with the configured hostname empty, the
    hostname becomes what [os.Hostname] returns, every other flag
    unchanged, and a failure of [os.Hostname] ends the process with
    [log.Fatal]; a non-empty hostname is left as it is.  The service that
    [main] hands to the agent and to the listeners carries the hostname
    so obtained. *)
Theorem checkHostname_effective (w : World) (p : Proc) :
  (fHostnamePtr (flags p) = "" -> forall hostname, os_Hostname w = inl hostname ->
   checkHostname w p
   = Done tt (mkProc (set_hostname (flags p) hostname) (listeners p) (heap p)
                     (trace p))
   /\ fHostnamePtr (set_hostname (flags p) hostname) = hostname)
  /\ (fHostnamePtr (flags p) = "" -> forall err, os_Hostname w = inr err ->
      checkHostname w p = Halted (LogFatal "Error resolving hostname") p)
  /\ (fHostnamePtr (flags p) <> "" -> checkHostname w p = Done tt p)
  /\ (forall p1, checkFlags w p = Done tt p1 ->
      exists eff, effective_of w (flags p) = Some eff
        /\ (fHostnamePtr eff = "" ->
            os_Hostname w = inl (fHostnamePtr (flags p1)))
        /\ (fHostnamePtr eff <> "" -> fHostnamePtr (flags p1) = fHostnamePtr eff)
        /\ svcHostname (service_of w (flags p1)) = fHostnamePtr (flags p1)).
Proof.
  destruct p as [f ls h tr]. cbn [flags listeners heap trace].
  split; [|split; [|split]].
  - intros He hostname Hos. unfold checkHostname. run_m. now rewrite He, Hos.
  - intros He err Hos. unfold checkHostname. run_m. now rewrite He, Hos.
  - intros Hne. unfold checkHostname. run_m.
    apply String.eqb_neq in Hne. now rewrite Hne.
  - intros p1 E.
    apply checkFlags_Done in E as (_ & (eff & He & _ & _ & Hh & _) & _).
    exists eff. split; [exact He|]. unfold hostnamed in Hh.
    destruct (String.eqb_spec (fHostnamePtr eff) "") as [Hempty|Hset].
    + destruct (os_Hostname w) as [hostname|]; [|discriminate].
      inversion Hh as [Hf]. repeat split; intros; subst;
        try reflexivity; try contradiction.
    + inversion Hh as [Hf]. repeat split; intros; subst;
        try reflexivity; try contradiction.
Qed.

(** C6.  When the configuration file loads, [parseCfg] returns and each of
    the twelve parameters (token, server, hostname, both port lists, flush
    threads, flush interval, flush maximum, buffer limit, id file, log
    file, pprof address) holds the loaded value, whatever the flag held and
    whether or not the loaded value is empty; the configuration path and
    the version flag are untouched.  [checkFlags] calls [parseCfg] exactly
    when the configuration path is non-empty, before any check. *)
Theorem parseCfg_overrides (w : World) (filename : string)
    (proxyConfig : ProxyConfig) (p : Proc) :
  config_LoadConfig w filename = inl proxyConfig ->
  (exists p', parseCfg w filename p = Done tt p'
     /\ file_parameters (flags p') = proxyConfig
     /\ fCfgPtr (flags p') = fCfgPtr (flags p)
     /\ fVersionPtr (flags p') = fVersionPtr (flags p)
     /\ listeners p' = listeners p /\ trace p' = trace p)
  /\ (fCfgPtr (flags p) = filename -> filename <> "" ->
      effective_of w (flags p) = Some (from_config (flags p) proxyConfig)
      /\ file_parameters (from_config (flags p) proxyConfig) = proxyConfig
      /\ forall p1, checkFlags w p = Done tt p1 ->
           hostnamed w (from_config (flags p) proxyConfig) = Some (flags p1)).
Proof.
  intros Hload. split.
  - destruct p as [f ls h tr]. unfold parseCfg. rewrite Hload. run_m.
    eexists. split; [reflexivity|]. cbn [flags listeners trace].
    destruct proxyConfig. repeat split.
  - intros Hf Hne.
    assert (He : effective_of w (flags p) = Some (from_config (flags p) proxyConfig)).
    { unfold effective_of. rewrite Hf, Hload.
      apply String.eqb_neq in Hne. now rewrite Hne. }
    split; [exact He|]. split; [now destruct proxyConfig|].
    intros p1 E.
    apply checkFlags_Done in E as (_ & (eff & He' & _ & _ & Hh & _) & _).
    congruence.
Qed.

Lemma collect_counters (registry : gmap string agent.Metric) :
  fst (agent.collect registry) = agent.counters registry
  /\ forall e, ~ In (agent.LogMarshalError e) (snd (agent.collect registry)).
Proof.
  unfold agent.collect, agent.Each, agent.counters.
  apply (map_fold_weak_ind
           (fun r m => fst r = omap (fun i => match i with
                                              | agent.Counter c => Some c
                                              | _ => None
                                              end) m
                       /\ forall e, ~ In (agent.LogMarshalError e) (snd r))).
  - split; [now rewrite omap_empty|]. intros e [].
  - intros name i m [acc logged] Hfresh [IH1 IH2]. simpl in IH1.
    assert (Hnone : omap (fun i => match i with
                                   | agent.Counter c => Some c
                                   | _ => None
                                   end) m !! name = None).
    { rewrite lookup_omap, Hfresh. reflexivity. }
    destruct i; simpl;
      try (split; [rewrite omap_insert_None, delete_id by auto; exact IH1
                  |exact IH2]).
    split.
    + rewrite (omap_insert_Some _ _ _ _ count) by reflexivity. now rewrite IH1.
    + intros e Hin. apply in_app_or in Hin as [Hin|[Hin|[]]].
      * exact (IH2 e Hin).
      * discriminate Hin.
Qed.

(** C1.  The payload [buildAgentMetrics] returns is what [json.Marshal]
    yields for the map holding, for every counter of the registry, its name
    mapped to its count, and no other entry: a name is in the serialized map
    with count [c] exactly when the registry holds a counter of count [c]
    under it, so a gauge (such as [build.version]), timer, histogram, meter
    or healthcheck is left out. *)
Theorem buildAgentMetrics_payload
    (json_Marshal : gmap string Z -> string * option string)
    (registry : gmap string agent.Metric) :
  fst (agent.buildAgentMetrics json_Marshal registry)
  = fst (json_Marshal (agent.counters registry))
  /\ (forall name c,
       agent.counters registry !! name = Some c
       <-> registry !! name = Some (agent.Counter c))
  /\ (forall name i,
       registry !! name = Some i ->
       (forall c, i <> agent.Counter c) ->
       agent.counters registry !! name = None).
Proof.
  split; [|split].
  - unfold agent.buildAgentMetrics.
    pose proof (collect_counters registry) as [H _].
    destruct (agent.collect registry) as [m logged]. simpl in H. subst m.
    destruct (json_Marshal (agent.counters registry)) as [b [e|]]; reflexivity.
  - intros name c. unfold agent.counters. rewrite lookup_omap.
    destruct (registry !! name) as [[]|]; simpl; split; intros H;
      inversion H; reflexivity.
  - intros name i Hi Hnot. unfold agent.counters. rewrite lookup_omap, Hi.
    destruct i; simpl; try reflexivity. now destruct (Hnot count).
Qed.

(** C7.  [buildAgentMetrics] returns a byte slice for every registry: the
    bytes [json.Marshal] returned, also when it returned an error; the error
    is written to the log as the last line and to nothing else, the result
    having no error component; without an error no such line is logged. *)
Theorem buildAgentMetrics_best_effort
    (json_Marshal : gmap string Z -> string * option string)
    (registry : gmap string agent.Metric) :
  exists (b : string) (logged : list agent.LogLine),
    agent.buildAgentMetrics json_Marshal registry = (b, logged)
    /\ b = fst (json_Marshal (fst (agent.collect registry)))
    /\ match snd (json_Marshal (fst (agent.collect registry))) with
       | Some e =>
           logged = (snd (agent.collect registry) ++ [agent.LogMarshalError e])%list
       | None =>
           logged = snd (agent.collect registry)
           /\ forall e, ~ In (agent.LogMarshalError e) logged
       end.
Proof.
  unfold agent.buildAgentMetrics.
  pose proof (collect_counters registry) as [_ Hlog].
  destruct (agent.collect registry) as [m logged]. simpl in *.
  destruct (json_Marshal m) as [b [e|]]; simpl.
  - exists b, (logged ++ [agent.LogMarshalError e])%list. auto.
  - exists b, logged. auto.
Qed.

Lemma step_capacity {Point : Type} (b : PointBuffer.t Point)
    (op : PointBuffer.Op Point) :
  PointBuffer.capacity (PointBuffer.step b op) = PointBuffer.capacity b.
Proof.
  destruct op as [producer point|consumer n]; simpl; [|reflexivity].
  unfold PointBuffer.tryEnqueue.
  now destruct (PointBuffer.size b <? PointBuffer.capacity b)%nat.
Qed.

Lemma step_within {Point : Type} (b : PointBuffer.t Point)
    (op : PointBuffer.Op Point) :
  PointBuffer.within_capacity b ->
  PointBuffer.within_capacity (PointBuffer.step b op).
Proof.
  unfold PointBuffer.within_capacity. intros H.
  destruct op as [producer point|consumer n]; simpl.
  - unfold PointBuffer.tryEnqueue.
    destruct (Nat.ltb_spec (PointBuffer.size b) (PointBuffer.capacity b))
      as [Hlt|Hge]; simpl; [|exact H].
    unfold PointBuffer.size in *. simpl. rewrite length_app. simpl. lia.
  - unfold PointBuffer.size in *. simpl. rewrite length_drop. lia.
Qed.

Lemma instants_within {Point : Type} (b : PointBuffer.t Point)
    (schedule : list (PointBuffer.Op Point)) :
  PointBuffer.within_capacity b ->
  Forall (fun b' => PointBuffer.within_capacity b'
                    /\ PointBuffer.capacity b' = PointBuffer.capacity b)
         (PointBuffer.instants b schedule).
Proof.
  revert b. induction schedule as [|op rest IH]; intros b H; simpl.
  - repeat constructor; auto.
  - constructor; [auto|].
    eapply Forall_impl; [apply IH, step_within, H|].
    simpl. intros b' [H1 H2]. split; [exact H1|].
    now rewrite H2, step_capacity.
Qed.

(** C2.  For a buffer created with capacity [maxBufferSize] and any
    schedule of [tryEnqueue] and [drainUpTo] operations by any producers
    and consumers, the buffer holds at most [maxBufferSize] points at
    every instant of the run. *)
Theorem size_never_exceeds_capacity {Point : Type} (maxBufferSize : nat)
    (schedule : list (PointBuffer.Op Point)) :
  Forall (fun b => (PointBuffer.size b <= maxBufferSize)%nat)
         (PointBuffer.instants (PointBuffer.create maxBufferSize) schedule).
Proof.
  eapply Forall_impl.
  - apply instants_within.
    unfold PointBuffer.within_capacity, PointBuffer.create, PointBuffer.size.
    simpl. lia.
  - simpl. intros b [H1 H2]. unfold PointBuffer.within_capacity in H1.
    rewrite H2 in H1. exact H1.
Qed.

Example counters_of_demo_registry :
  agent.counters demo_registry
  = <["points.dropped" := 3]> (<["points.received" := 12]> ∅).
Proof. vm_compute. reflexivity. Qed.

Lemma valid_entry_check (s : string) :
  port_ok s = true -> valid_entry s.
Proof. apply port_ok_valid. Qed.



Lemma parseCfg_overrides_witness :
  exists p',
    parseCfg (world_of (flags_with "tok" "2878" "4242")) "proxy.conf"
      (start_state (world_of (flags_with "tok" "2878" "4242")))
    = Done tt p'
    /\ file_parameters (flags p') = demo_config
    /\ fCfgPtr (flags p') = ""
    /\ fVersionPtr (flags p') = false
    /\ listeners p' = [] /\ trace p' = [].
Proof.
  exact (proj1 (parseCfg_overrides (world_of (flags_with "tok" "2878" "4242"))
                  "proxy.conf" demo_config
                  (start_state (world_of (flags_with "tok" "2878" "4242")))
                  eq_refl)).
Defined.




Lemma checkHostname_effective_witness :
  checkHostname demo_world (start_state demo_world)
  = Done tt (mkProc (set_hostname demo_flags "proxy-host") [] 0 [])
  /\ fHostnamePtr (set_hostname demo_flags "proxy-host") = "proxy-host".
Proof.
  apply (proj1 (checkHostname_effective demo_world (start_state demo_world)));
    reflexivity.
Defined.

(** * Further properties of proxy.go and of [buildAgentMetrics] *)

(** ** [checkFlags], outcome by outcome *)

(** Destructs the conditions of the goal and of the hypotheses. *)
Ltac crunch :=
  repeat (run_m; norm_flags;
          match goal with
          | H : context [if negb ?b then _ else _] |- _ => destruct b eqn:?
          | H : context [if ?b then _ else _] |- _ => destruct b eqn:?
          | H : context [match ?x with inl _ => _ | inr _ => _ end] |- _ =>
              destruct x eqn:?
          | H : context [match ?x with Some _ => _ | None => _ end] |- _ =>
              destruct x eqn:?
          | |- context [if negb ?b then _ else _] => destruct b eqn:?
          | |- context [if ?b then _ else _] => destruct b eqn:?
          | |- context [match ?x with inl _ => _ | inr _ => _ end] =>
              destruct x eqn:?
          | |- context [match ?x with Some _ => _ | None => _ end] =>
              destruct x eqn:?
          end);
  simplify_eq; norm_flags.

Lemma checkFlags_returns (w : World) (p : Proc) (eff f' : Flags) :
  fVersionPtr (flags p) = false ->
  effective_of w (flags p) = Some eff ->
  fTokenPtr eff <> "" -> fServerPtr eff <> "" ->
  hostnamed w eff = Some f' -> logger_ok w eff = true ->
  checkFlags w p
  = Done tt (mkProc f' (listeners p) (heap p) (trace p ++ logger_events eff)).
Proof.
  destruct p as [f ls h tr]. cbn [flags listeners heap trace].
  intros Hv He Ht Hs Hh Hl.
  apply String.eqb_neq in Ht, Hs.
  unfold effective_of, hostnamed, logger_ok in *.
  unfold checkFlags, parseCfg, checkRequiredFlag, checkHostname, setupLogger,
    logger_events.
  crunch; rewrite ?app_nil_r; try reflexivity; try congruence.
Qed.

Lemma checkFlags_version (w : World) (p : Proc) :
  fVersionPtr (flags p) = true ->
  checkFlags w p = Halted (OsExit 0) (with_events p [LogPrint (version_line w)]).
Proof.
  destruct p as [f ls h tr]. cbn [flags]. intros Hv.
  unfold checkFlags, with_events, version_line. run_m. now rewrite Hv.
Qed.

Lemma checkFlags_load_error (w : World) (p : Proc) (err : string) :
  fVersionPtr (flags p) = false ->
  fCfgPtr (flags p) <> "" ->
  config_LoadConfig w (fCfgPtr (flags p)) = inr err ->
  checkFlags w p = Halted (LogFatal ("Error loading config file: " ++ err)) p.
Proof.
  destruct p as [f ls h tr]. cbn [flags]. intros Hv Hc Hl.
  apply String.eqb_neq in Hc.
  unfold checkFlags, parseCfg. run_m. rewrite Hv, Hc. cbn [negb]. run_m.
  now rewrite Hl.
Qed.

Lemma checkFlags_missing (w : World) (p : Proc) (eff : Flags) :
  fVersionPtr (flags p) = false ->
  effective_of w (flags p) = Some eff ->
  fTokenPtr eff = "" \/ fServerPtr eff = "" ->
  checkFlags w p
  = Halted (OsExit 1)
      (mkProc eff (listeners p) (heap p)
         (trace p ++ [LogPrint (if String.eqb (fTokenPtr eff) ""
                                then "Missing token" else "Missing server");
                      FlagUsage])).
Proof.
  destruct p as [f ls h tr]. cbn [flags listeners heap trace].
  intros Hv He Hmiss. unfold effective_of in He.
  assert (Hb : String.eqb (fTokenPtr eff) "" = true
               \/ (String.eqb (fTokenPtr eff) "" = false
                   /\ String.eqb (fServerPtr eff) "" = true)).
  { destruct (String.eqb_spec (fTokenPtr eff) ""); [now left|right].
    split; [reflexivity|]. apply String.eqb_eq. tauto. }
  clear Hmiss.
  unfold checkFlags, parseCfg, checkRequiredFlag, checkHostname, setupLogger.
  destruct Hb as [Hb|[Hb Hb']]; crunch; rewrite <- ?app_assoc;
    try reflexivity; try congruence.
Qed.

Lemma checkFlags_hostname_error (w : World) (p : Proc) (eff : Flags) :
  fVersionPtr (flags p) = false ->
  effective_of w (flags p) = Some eff ->
  fTokenPtr eff <> "" -> fServerPtr eff <> "" ->
  hostnamed w eff = None ->
  checkFlags w p
  = Halted (LogFatal "Error resolving hostname")
      (mkProc eff (listeners p) (heap p) (trace p)).
Proof.
  destruct p as [f ls h tr]. cbn [flags listeners heap trace].
  intros Hv He Ht Hs Hh. apply String.eqb_neq in Ht, Hs.
  unfold effective_of, hostnamed in *.
  unfold checkFlags, parseCfg, checkRequiredFlag, checkHostname, setupLogger.
  crunch; try reflexivity; try congruence.
Qed.

Lemma checkFlags_logger_error (w : World) (p : Proc) (eff f' : Flags)
    (err : string) :
  fVersionPtr (flags p) = false ->
  effective_of w (flags p) = Some eff ->
  fTokenPtr eff <> "" -> fServerPtr eff <> "" ->
  hostnamed w eff = Some f' ->
  fLogFilePtr eff <> "" -> os_Create w (fLogFilePtr eff) = Some err ->
  checkFlags w p = Halted (Panic err) (mkProc f' (listeners p) (heap p) (trace p)).
Proof.
  destruct p as [f ls h tr]. cbn [flags listeners heap trace].
  intros Hv He Ht Hs Hh Hl Hc. apply String.eqb_neq in Ht, Hs, Hl.
  unfold effective_of, hostnamed in *.
  unfold checkFlags, parseCfg, checkRequiredFlag, checkHostname, setupLogger.
  crunch; try reflexivity; try congruence.
Qed.

(** A run of [main], unfolded along its three stages. *)
Lemma run_main_unfold (w : World) :
  run_main w
  = match checkFlags w (start_state w) with
    | Halted h p => Halted h p
    | Done _ p1 =>
        match first_bad (plan (flags p1)) with
        | Some s => Halted (LogFatal ("Invalid port " ++ s)) (listening w p1)
        | None => waitForShutdown_loop (signals w) (listening w p1)
        end
    end.
Proof.
  unfold run_main, main, waitForShutdown. unfold mbind at 1. unfold M_bind at 1.
  rewrite startup_spec.
  destruct (checkFlags w (start_state w)) as [[] p1|h p1]; [|reflexivity].
  rewrite startListeners_spec. unfold listening, with_events.
  cbn [flags heap].
  destruct (first_bad (plan (flags p1))) as [s|] eqn:Hfb; [reflexivity|].
  now rewrite (good_prefix_all _ Hfb).
Qed.

Lemma startup_unfold (w : World) :
  startup w (start_state w)
  = match checkFlags w (start_state w) with
    | Halted h p => Halted h p
    | Done _ p1 =>
        match first_bad (plan (flags p1)) with
        | Some s => Halted (LogFatal ("Invalid port " ++ s)) (listening w p1)
        | None => Done tt (listening w p1)
        end
    end.
Proof.
  rewrite startup_spec.
  destruct (checkFlags w (start_state w)) as [[] p1|h p1]; [|reflexivity].
  rewrite startListeners_spec. unfold listening, with_events. cbn [flags heap].
  destruct (first_bad (plan (flags p1))) as [s|] eqn:Hfb; [reflexivity|].
  now rewrite (good_prefix_all _ Hfb).
Qed.

Lemma has_interrupt_false (sigs : list Signal) :
  has_interrupt sigs = false -> ~ In Interrupt sigs.
Proof.
  intros H Hin. apply has_interrupt_In in Hin. congruence.
Qed.

(** How [checkFlags] ends when it does not return, in the order of its
    checks. *)
Lemma checkFlags_halt_kind (w : World) (p p' : Proc) (h : Halt) :
  checkFlags w p = Halted h p' ->
  (fVersionPtr (flags p) = true /\ h = OsExit 0)
  \/ (fVersionPtr (flags p) = false
      /\ ((effective_of w (flags p) = None
           /\ exists err, h = LogFatal ("Error loading config file: " ++ err)
                /\ fCfgPtr (flags p) <> ""
                /\ config_LoadConfig w (fCfgPtr (flags p)) = inr err)
          \/ exists eff, effective_of w (flags p) = Some eff
               /\ (((fTokenPtr eff = "" \/ fServerPtr eff = "") /\ h = OsExit 1)
                   \/ (fTokenPtr eff <> "" /\ fServerPtr eff <> ""
                       /\ ((hostnamed w eff = None
                            /\ h = LogFatal "Error resolving hostname")
                           \/ (exists f' err, hostnamed w eff = Some f'
                                 /\ fLogFilePtr eff <> ""
                                 /\ os_Create w (fLogFilePtr eff) = Some err
                                 /\ h = Panic err)))))).
Proof.
  intros E.
  destruct (fVersionPtr (flags p)) eqn:Hv.
  { left. rewrite (checkFlags_version _ _ Hv) in E. split; congruence. }
  right. split; [reflexivity|].
  destruct (effective_of w (flags p)) as [eff|] eqn:He.
  2:{ left. split; [reflexivity|]. unfold effective_of in He.
      destruct (String.eqb_spec (fCfgPtr (flags p)) "") as [|Hc]; [discriminate|].
      destruct (config_LoadConfig w (fCfgPtr (flags p))) as [|err] eqn:Hl;
        [discriminate|].
      rewrite (checkFlags_load_error _ _ _ Hv Hc Hl) in E.
      exists err. repeat split; congruence. }
  right. exists eff. split; [reflexivity|].
  destruct (String.eqb_spec (fTokenPtr eff) "") as [Ht|Ht].
  { left. rewrite (checkFlags_missing _ _ _ Hv He (or_introl Ht)) in E.
    split; [now left|congruence]. }
  destruct (String.eqb_spec (fServerPtr eff) "") as [Hs|Hs].
  { left. rewrite (checkFlags_missing _ _ _ Hv He (or_intror Hs)) in E.
    split; [now right|congruence]. }
  right. split; [exact Ht|]. split; [exact Hs|].
  destruct (hostnamed w eff) as [f'|] eqn:Hh.
  2:{ left. rewrite (checkFlags_hostname_error _ _ _ Hv He Ht Hs Hh) in E.
      split; [reflexivity|congruence]. }
  right. destruct (logger_ok w eff) eqn:Hl.
  { rewrite (checkFlags_returns _ _ _ _ Hv He Ht Hs Hh Hl) in E. discriminate. }
  unfold logger_ok in Hl.
  destruct (String.eqb_spec (fLogFilePtr eff) "") as [|Hlog]; [discriminate|].
  destruct (os_Create w (fLogFilePtr eff)) as [err|] eqn:Hc; [|discriminate].
  rewrite (checkFlags_logger_error _ _ _ _ _ Hv He Ht Hs Hh Hlog Hc) in E.
  exists f', err. repeat split; congruence.
Qed.

(** The main goroutine never returns from [main]: it ends the process or
    stays parked in [waitForShutdown], the latter exactly when [startup]
    has returned and no interrupt is delivered. *)
Lemma main_goroutine_fate (w : World) :
  exists h p,
    run_main w = Halted h p
    /\ (h = Parked ->
        ~ In Interrupt (signals w)
        /\ stopped (trace p) = []
        /\ exists p0, startup w (start_state w) = Done tt p0
             /\ p = with_events p0 (map SignalReceived (signals w)))
    /\ ((exists p0, startup w (start_state w) = Done tt p0) ->
        ~ In Interrupt (signals w) -> h = Parked).
Proof.
  rewrite run_main_unfold, startup_unfold.
  destruct (checkFlags w (start_state w)) as [[] p1|h p1] eqn:E.
  - destruct (first_bad (plan (flags p1))) as [s|] eqn:Hfb.
    + eexists _, _. split; [reflexivity|].
      split; [discriminate|]. intros [p0 H]. discriminate.
    + rewrite waitForShutdown_loop_spec.
      destruct (has_interrupt (signals w)) eqn:Hi.
      * eexists _, _. split; [reflexivity|]. split; [discriminate|].
        intros _ Hno. exfalso.
        clear - Hi Hno. induction (signals w) as [|[|n] sigs IH]; simpl in *;
          [discriminate|tauto|tauto].
      * eexists _, _. split; [reflexivity|].
        split; [|reflexivity]. intros _.
        split; [now apply has_interrupt_false|].
        split; [|eexists; split; reflexivity].
        cbn [with_events trace]. rewrite stopped_app, stopped_signals, app_nil_r.
        unfold listening. rewrite after_listeners_stopped.
        cbn [with_events trace]. rewrite stopped_app, stopped_pre_events, app_nil_r.
        apply checkFlags_Done in E. tauto.
  - apply checkFlags_halt_kind in E as Hk.
    exists h, p1. split; [reflexivity|]. split.
    + intros ->. exfalso.
      destruct Hk as [[_ Hk]|[_ [[_ (err & Hk & _)]|(eff & _ & [[_ Hk]|(_ & _ & [[_ Hk]|(f' & err & _ & _ & _ & Hk)])])]]];
        discriminate.
    + intros [p0 H]. discriminate.
Qed.

(** X2.  The exit status tells why the process exited: [os.Exit(0)] means
    that the version was asked for, or that startup completed and an
    interrupt was received; [os.Exit(1)] means that the version was not
    asked for and the effective token or server is empty; no other status
    is passed to [os.Exit]. *)
Theorem exit_status_meaning (w : World) (code : Z) (p : Proc) :
  run_main w = Halted (OsExit code) p ->
  (code = 0
   /\ (fVersionPtr (flag_Parse w) = true
       \/ ((exists p0, startup w (start_state w) = Done tt p0)
           /\ In Interrupt (signals w))))
  \/ (code = 1
      /\ fVersionPtr (flag_Parse w) = false
      /\ exists eff, effective_flags w = Some eff
           /\ (fTokenPtr eff = "" \/ fServerPtr eff = "")).
Proof.
  rewrite run_main_unfold, startup_unfold. unfold effective_flags.
  change (flag_Parse w) with (flags (start_state w)).
  destruct (checkFlags w (start_state w)) as [[] p1|h p1] eqn:E.
  - destruct (first_bad (plan (flags p1))) as [s|]; [discriminate|].
    rewrite waitForShutdown_loop_spec.
    destruct (has_interrupt (signals w)) eqn:Hi; [|discriminate].
    intros H. inversion H; subst. left. split; [reflexivity|]. right.
    split; [eauto|]. clear - Hi.
    induction (signals w) as [|[|n] sigs IH]; simpl in *;
      [discriminate|auto|auto].
  - intros H. inversion H; subst.
    apply checkFlags_halt_kind in E
      as [[Hv Hk]|[Hv [[_ (err & Hk & _)]|(eff & He & [[Hm Hk]|(_ & _ & [[_ Hk]|(f' & err & _ & _ & _ & Hk)])])]]];
      try discriminate; inversion Hk; subst.
    + left. auto.
    + right. split; [reflexivity|]. split; [exact Hv|]. eauto.
Qed.

(** X3.  With the version flag unset and the effective token or server
    empty, the process logs one line, "Missing token" when the token is
    empty and "Missing server" otherwise, prints the usage and exits with
    status 1: the token is checked first, the flags are the effective ones,
    and nothing else has happened. *)
Theorem missing_required_flag_exits (w : World) (eff : Flags) :
  fVersionPtr (flag_Parse w) = false ->
  effective_flags w = Some eff ->
  fTokenPtr eff = "" \/ fServerPtr eff = "" ->
  run_main w
  = Halted (OsExit 1)
      (mkProc eff [] 0
         [LogPrint (if String.eqb (fTokenPtr eff) ""
                    then "Missing token" else "Missing server");
          FlagUsage]).
Proof.
  intros Hv He Hm. rewrite run_main_unfold.
  now rewrite (checkFlags_missing w (start_state w) eff Hv He Hm).
Qed.

(** X4.  With the version flag set, the process logs the version line and
    exits with status 0, whatever else the command line holds: no
    configuration file is loaded and nothing is checked.  The line names
    the tag when a tag is set and the version otherwise. *)
Theorem version_flag_prints_and_exits (w : World) :
  fVersionPtr (flag_Parse w) = true ->
  run_main w
  = Halted (OsExit 0)
      (mkProc (flag_Parse w) [] 0 [LogPrint (version_line w)])
  /\ (tag w <> "" ->
      version_line w
      = "wavefront-proxy v" ++ tag w ++ " (git: " ++ branch w ++ " "
        ++ commit w ++ ")")
  /\ (tag w = "" ->
      version_line w
      = "wavefront-proxy v" ++ version w ++ " (git: " ++ branch w ++ " "
        ++ commit w ++ ")").
Proof.
  intros Hv. split; [|split].
  - rewrite run_main_unfold.
    now rewrite (checkFlags_version w (start_state w) Hv).
  - intros Ht. apply String.eqb_neq in Ht.
    unfold version_line, getVersion. now rewrite Ht.
  - intros Ht. unfold version_line, getVersion. now rewrite Ht.
Qed.

(** X5.  With the version flag unset and a configuration file named, a
    failure to load it ends the process with [log.Fatal] and the loader's
    error, before any flag is checked: the flags are untouched and nothing
    has been logged or started. *)
Theorem config_load_failure_is_fatal (w : World) (err : string) :
  fVersionPtr (flag_Parse w) = false ->
  fCfgPtr (flag_Parse w) <> "" ->
  config_LoadConfig w (fCfgPtr (flag_Parse w)) = inr err ->
  run_main w
  = Halted (LogFatal ("Error loading config file: " ++ err)) (start_state w).
Proof.
  intros Hv Hc Hl. rewrite run_main_unfold.
  now rewrite (checkFlags_load_error w (start_state w) err Hv Hc Hl).
Qed.

(** X6.  When the token, server and hostname checks have passed and the
    effective log file is named but cannot be created, the process panics
    with the error of [os.Create]: the hostname has been resolved by then,
    and nothing has been logged or started. *)
Theorem log_file_failure_panics (w : World) (eff f' : Flags) (err : string) :
  fVersionPtr (flag_Parse w) = false ->
  effective_flags w = Some eff ->
  fTokenPtr eff <> "" -> fServerPtr eff <> "" ->
  hostnamed w eff = Some f' ->
  fLogFilePtr eff <> "" -> os_Create w (fLogFilePtr eff) = Some err ->
  run_main w = Halted (Panic err) (mkProc f' [] 0 []).
Proof.
  intros Hv He Ht Hs Hh Hl Hc. rewrite run_main_unfold.
  now rewrite (checkFlags_logger_error w (start_state w) eff f' err
                 Hv He Ht Hs Hh Hl Hc).
Qed.

(** ** What a run emits, stage by stage *)

Lemma checkFlags_events (w : World) (p : Proc) :
  exists evs,
    trace (final (checkFlags w p)) = (trace p ++ evs)%list
    /\ Forall check_event evs.
Proof.
  destruct p as [f ls h tr].
  destruct (checkFlags w (mkProc f ls h tr)) as [[] p'|hl p'] eqn:E;
    cbn [final];
    unfold checkFlags, parseCfg, checkRequiredFlag, checkHostname, setupLogger in E;
    branch_in E; try discriminate E; inversion E; subst; clear E;
    cbn [trace]; rewrite <- ?app_assoc;
    first [ exists []; split; [now rewrite app_nil_r|constructor]
          | eexists; split; [reflexivity|repeat constructor] ].
Qed.

Lemma shutdown_events (sigs : list Signal) (p : Proc) :
  exists evs,
    trace (final (waitForShutdown_loop sigs p)) = (trace p ++ evs)%list
    /\ Forall shutdown_event evs.
Proof.
  rewrite waitForShutdown_loop_spec.
  destruct (has_interrupt sigs); cbn [final with_events trace];
    eexists; (split; [reflexivity|]); rewrite ?Forall_app; repeat split;
    try (apply Forall_forall; intros e He;
         apply list_elem_of_In, in_map_iff in He as (x & <- & _); exact I).
  repeat constructor.
Qed.

(** The trace of a run in which [checkFlags] returned: what [checkFlags]
    emitted, the events of [main] before the listeners, one [Start] per
    listener, then the events of the shutdown. *)
Lemma run_trace (w : World) (p1 : Proc) :
  checkFlags w (start_state w) = Done tt p1 ->
  exists tail,
    trace (final (run_main w))
    = (trace p1 ++ pre_events w (flags p1)
       ++ map (start_event (flags p1) (service_of w (flags p1)))
              (make_listeners 0 (good_prefix (plan (flags p1))))
       ++ tail)%list
    /\ Forall shutdown_event tail.
Proof.
  intros E. rewrite run_main_unfold, E.
  assert (Hheap : heap p1 = 0%nat).
  { apply checkFlags_Done in E. tauto. }
  assert (Htr : trace (listening w p1)
                = (trace p1 ++ pre_events w (flags p1)
                   ++ map (start_event (flags p1) (service_of w (flags p1)))
                          (make_listeners 0 (good_prefix (plan (flags p1)))))%list).
  { unfold listening, after_listeners, with_events. cbn [trace flags].
    now rewrite Hheap, <- app_assoc. }
  destruct (first_bad (plan (flags p1))) as [s|].
  - exists []. cbn [final]. rewrite Htr, !app_nil_r. split; [reflexivity|constructor].
  - destruct (shutdown_events (signals w) (listening w p1)) as (evs & Hevs & Hall).
    exists evs. rewrite Hevs, Htr, <- !app_assoc. split; [reflexivity|exact Hall].
Qed.

Lemma omap_none {A B} (f : A -> option B) (l : list A) :
  Forall (fun x => f x = None) l -> omap f l = [].
Proof.
  induction 1 as [|x l Hx _ IH]; [reflexivity|].
  cbn [omap list_omap]. now rewrite Hx.
Qed.

(** Closes [obs evs = []] for an observation [obs] that the events of a
    stage cannot match. *)
Ltac no_such_event H :=
  apply omap_none; eapply Forall_impl; [exact H|];
  let e := fresh "e" in
  let Hev := fresh "Hev" in
  intros e Hev; destruct e; simpl in Hev; try reflexivity; try contradiction.

Lemma starts_observed {B} (f : Event -> option B) (fl : Flags)
    (service : WavefrontAPIService) (ls : list PointListener) (g : PointListener -> option B) :
  (forall l, f (start_event fl service l) = g l) ->
  omap f (map (start_event fl service) ls) = omap g ls.
Proof.
  intros H. induction ls as [|l ls IH]; [reflexivity|].
  cbn [map omap list_omap]. now rewrite H, IH.
Qed.

(** X7.  When [checkFlags] returns it has logged nothing: the one event it
    can have produced is the redirection of the log output, present exactly
    when the effective log file is named, in which case the file was
    created. *)
Theorem checkFlags_is_silent (w : World) (p p' : Proc) :
  checkFlags w p = Done tt p' ->
  exists eff,
    effective_of w (flags p) = Some eff
    /\ trace p' = (trace p ++ logger_events eff)%list
    /\ log_lines (trace p') = log_lines (trace p)
    /\ (fLogFilePtr eff = "" -> trace p' = trace p)
    /\ (fLogFilePtr eff <> "" ->
        os_Create w (fLogFilePtr eff) = None
        /\ trace p' = (trace p ++ [LogSetOutput (fLogFilePtr eff)])%list).
Proof.
  intros E.
  apply checkFlags_Done in E as H.
  destruct H as (Hv & (eff & He & Ht & Hs & Hh & Hl) & _).
  rewrite (checkFlags_returns w p eff (flags p') Hv He Ht Hs Hh Hl) in E.
  inversion E as [Hp]. exists eff. split; [exact He|].
  rewrite <- Hp at 1 2 3 4. cbn [trace].
  unfold logger_events, logger_ok in *.
  destruct (String.eqb_spec (fLogFilePtr eff) "") as [Hempty|Hnamed].
  - rewrite app_nil_r. repeat split; auto; intros; contradiction.
  - unfold log_lines. rewrite omap_app. cbn. rewrite app_nil_r.
    repeat split; auto; try (intros; contradiction).
    destruct (os_Create w (fLogFilePtr eff)); [discriminate|reflexivity].
Qed.

Lemma halted_run_trace (w : World) (h : Halt) (p : Proc) :
  checkFlags w (start_state w) = Halted h p ->
  exists evs, trace (final (run_main w)) = evs /\ Forall check_event evs.
Proof.
  intros E. rewrite run_main_unfold, E. cbn [final].
  destruct (checkFlags_events w (start_state w)) as (evs & Htr & Hall).
  rewrite E in Htr. cbn [final] in Htr. exists evs. split; [exact Htr|exact Hall].
Qed.

Lemma returned_check_trace (w : World) (p1 : Proc) :
  checkFlags w (start_state w) = Done tt p1 -> Forall check_event (trace p1).
Proof.
  intros E. destruct (checkFlags_events w (start_state w)) as (evs & Htr & Hall).
  rewrite E in Htr. cbn [final] in Htr. now rewrite Htr.
Qed.

(** X8.  The gauge [build.version] is updated once in a run, with
    [buildVersion] of the build's version (the tag plays no part), exactly
    when [checkFlags] returns; no other gauge is ever updated. *)
Theorem build_version_gauge_set_once (w : World) :
  gauges (trace (final (run_main w)))
  = match checkFlags w (start_state w) with
    | Done _ _ => [("build.version", buildVersion (version w))]
    | Halted _ _ => []
    end.
Proof.
  destruct (checkFlags w (start_state w)) as [[] p1|h p1] eqn:E.
  - destruct (run_trace w p1 E) as (tail & Htr & Htail).
    pose proof (returned_check_trace w p1 E) as Hchk.
    rewrite Htr. unfold gauges. rewrite !omap_app.
    rewrite (starts_observed _ _ _ _ (fun _ => None)) by reflexivity.
    replace (omap _ (trace p1)) with (@nil (string * Z)) by (symmetry; no_such_event Hchk).
    replace (omap _ tail) with (@nil (string * Z)) by (symmetry; no_such_event Htail).
    rewrite (omap_none (fun _ => None)) by (apply Forall_forall; auto).
    unfold pre_events. destruct (String.eqb (fPprofAddr (flags p1)) ""); reflexivity.
  - destruct (halted_run_trace w h p1 E) as (evs & -> & Hall).
    unfold gauges. no_such_event Hall.
Qed.

(** X9.  The pprof server is started at most once, exactly when
    [checkFlags] returns and the effective pprof address is non-empty, on
    that address. *)
Theorem pprof_started_when_addressed (w : World) :
  pprofs (trace (final (run_main w)))
  = match checkFlags w (start_state w), effective_flags w with
    | Done _ _, Some eff =>
        if String.eqb (fPprofAddr eff) "" then [] else [fPprofAddr eff]
    | _, _ => []
    end.
Proof.
  destruct (checkFlags w (start_state w)) as [[] p1|h p1] eqn:E.
  - destruct (run_trace w p1 E) as (tail & Htr & Htail).
    pose proof (returned_check_trace w p1 E) as Hchk.
    apply checkFlags_Done in E as (_ & (eff & He & _ & _ & Hh & _) & _).
    unfold effective_flags. change (flag_Parse w) with (flags (start_state w)).
    rewrite He.
    assert (Hp : fPprofAddr (flags p1) = fPprofAddr eff).
    { unfold hostnamed in Hh.
      destruct (String.eqb (fHostnamePtr eff) ""); [destruct (os_Hostname w)|];
        inversion Hh; reflexivity. }
    rewrite Htr. unfold pprofs. rewrite !omap_app.
    rewrite (starts_observed _ _ _ _ (fun _ => None)) by reflexivity.
    replace (omap _ (trace p1)) with (@nil string) by (symmetry; no_such_event Hchk).
    replace (omap _ tail) with (@nil string) by (symmetry; no_such_event Htail).
    rewrite (omap_none (fun _ => None)) by (apply Forall_forall; auto).
    unfold pre_events. rewrite Hp.
    destruct (String.eqb (fPprofAddr eff) ""); reflexivity.
  - destruct (halted_run_trace w h p1 E) as (evs & -> & Hall).
    unfold pprofs. no_such_event Hall.
Qed.

Lemma hostnamed_fields (w : World) (eff f' : Flags) :
  hostnamed w eff = Some f' ->
  fTokenPtr f' = fTokenPtr eff /\ fServerPtr f' = fServerPtr eff
  /\ fIdFilePtr f' = fIdFilePtr eff /\ fPprofAddr f' = fPprofAddr eff
  /\ fLogFilePtr f' = fLogFilePtr eff.
Proof.
  unfold hostnamed. intros H.
  destruct (String.eqb (fHostnamePtr eff) ""); [destruct (os_Hostname w)|];
    inversion H; subst; repeat split; reflexivity.
Qed.



(** ** Shutdown, in the whole run *)

Lemma has_interrupt_true (sigs : list Signal) :
  has_interrupt sigs = true -> In Interrupt sigs.
Proof.
  induction sigs as [|[|n] sigs IH]; simpl; intros H; [discriminate|auto|auto].
Qed.

Lemma listening_quiet (w : World) (p1 : Proc) :
  checkFlags w (start_state w) = Done tt p1 ->
  stopped (trace (listening w p1)) = []
  /\ received (trace (listening w p1)) = [].
Proof.
  intros E. pose proof (returned_check_trace w p1 E) as Hchk.
  unfold listening, after_listeners, with_events. cbn [trace flags].
  unfold stopped, received. rewrite !omap_app.
  rewrite !(starts_observed _ _ _ _ (fun _ => None)) by reflexivity.
  rewrite !(omap_none (fun _ => None)) by (apply Forall_forall; auto).
  replace (omap _ (trace p1)) with (@nil PointListener)
    by (symmetry; no_such_event Hchk).
  replace (omap _ (trace p1)) with (@nil Signal)
    by (symmetry; no_such_event Hchk).
  unfold pre_events.
  destruct (String.eqb (fPprofAddr (flags p1)) ""); split; reflexivity.
Qed.

Lemma startup_done (w : World) (p0 : Proc) :
  startup w (start_state w) = Done tt p0 ->
  exists p1, checkFlags w (start_state w) = Done tt p1
             /\ first_bad (plan (flags p1)) = None
             /\ p0 = listening w p1.
Proof.
  rewrite startup_unfold.
  destruct (checkFlags w (start_state w)) as [[] p1|h p1]; [|discriminate].
  destruct (first_bad (plan (flags p1))) as [s|] eqn:Hfb; [discriminate|].
  intros H. inversion H. exists p1. repeat split; auto.
Qed.

(** X12.  In every run the [Start] calls all come before the first signal
    is received and before any [Stop] call, and a [Stop] call is made only
    when an interrupt is delivered: the trace splits into a part without
    [Stop] or signal and a part without [Start]. *)
Theorem stops_follow_starts (w : World) :
  exists t1 t2,
    trace (final (run_main w)) = (t1 ++ t2)%list
    /\ stopped t1 = [] /\ received t1 = []
    /\ started t2 = []
    /\ (stopped t2 <> [] -> In Interrupt (signals w)).
Proof.
  rewrite run_main_unfold.
  destruct (checkFlags w (start_state w)) as [[] p1|h p1] eqn:E.
  - destruct (listening_quiet w p1 E) as [Hl1 Hl2].
    destruct (first_bad (plan (flags p1))) as [s|].
    + exists (trace (listening w p1)), []. cbn [final].
      rewrite app_nil_r. repeat split; auto. intros H. now destruct H.
    + rewrite waitForShutdown_loop_spec.
      destruct (has_interrupt (signals w)) eqn:Hi; cbn [final with_events trace];
        eexists (trace (listening w p1)), _;
        (split; [reflexivity|]); (split; [exact Hl1|]); (split; [exact Hl2|]).
      * split; [|intros _; now apply has_interrupt_true].
        rewrite !started_app, started_signals, started_stops. reflexivity.
      * split; [apply started_signals|]. rewrite stopped_signals.
        intros H. now destruct H.
  - destruct (halted_run_trace w h p1 E) as (evs & Hevs & Hall).
    rewrite run_main_unfold, E in Hevs. cbn [final] in *.
    exists (trace p1), []. rewrite app_nil_r, Hevs.
    split; [reflexivity|].
    split; [unfold stopped; no_such_event Hall|].
    split; [unfold received; no_such_event Hall|].
    split; [reflexivity|]. intros H. now destruct H.
Qed.



(** ** Port lists *)

Lemma first_bad_app (xs ys : list (string * DecoderBuilder)) :
  first_bad (xs ++ ys)
  = match first_bad xs with Some s => Some s | None => first_bad ys end.
Proof.
  induction xs as [|[s b] xs IH]; simpl; [reflexivity|].
  destruct (port_ok s); [exact IH|reflexivity].
Qed.

Lemma good_prefix_app (xs ys : list (string * DecoderBuilder)) :
  first_bad xs = None ->
  good_prefix (xs ++ ys) = (xs ++ good_prefix ys)%list.
Proof.
  induction xs as [|[s b] xs IH]; simpl; [reflexivity|].
  destruct (port_ok s); [|discriminate]. intros H. now rewrite IH.
Qed.

Lemma port_not_ok (s : string) : ~ valid_entry s -> port_ok s = false.
Proof.
  intros H. destruct (port_ok s) eqn:E; [|reflexivity].
  apply port_ok_valid in E. contradiction.
Qed.

(** X14.  [startListeners] stops at the first entry that is not a decimal
    integer fitting an [int]: [log.Fatal] names that very entry, the
    listeners of the entries before it, and only they, have been appended
    and started, and the entries after it play no part. *)
Theorem first_rejected_entry_is_named (service : WavefrontAPIService)
    (p : Proc) (good rest : list (string * DecoderBuilder)) (s : string)
    (b : DecoderBuilder) :
  plan (flags p) = (good ++ (s, b) :: rest)%list ->
  Forall (fun it => valid_entry (fst it)) good ->
  ~ valid_entry s ->
  startListeners service p
  = Halted (LogFatal ("Invalid port " ++ s))
      (after_listeners service p (make_listeners (heap p) good))
  /\ length (started (trace (after_listeners service p
                               (make_listeners (heap p) good))))
     = (length (started (trace p)) + length good)%nat.
Proof.
  intros Hplan Hgood Hbad.
  apply first_bad_None in Hgood. apply port_not_ok in Hbad.
  split.
  - rewrite startListeners_spec, Hplan, first_bad_app, Hgood.
    rewrite (good_prefix_app _ _ Hgood). cbn [first_bad good_prefix].
    rewrite Hbad. now rewrite app_nil_r.
  - rewrite after_listeners_started, length_app, make_listeners_length.
    reflexivity.
Qed.

Lemma Split_snoc (s : string) (sep : ascii) :
  strings.Split (s ++ String sep "") sep
  = (strings.Split s sep ++ [EmptyString])%list.
Proof.
  induction s as [|c s IH]; simpl.
  - now rewrite Ascii.eqb_refl.
  - destruct (Ascii.eqb c sep); rewrite IH; [reflexivity|].
    pose proof (Split_nonempty s sep) as Hne.
    destruct (strings.Split s sep); [contradiction|reflexivity].
Qed.

Lemma empty_entry_rejected : port_ok "" = false.
Proof. reflexivity. Qed.

(** X15.  [startPointListeners] does not tolerate an empty field.  Called
    on the empty list it dies at once with "Invalid port " (which is why
    [startListeners] skips an empty list); a list that begins with a comma
    dies the same way before any listener is started; and a list that ends
    with a comma always dies, after starting the listeners of the fields
    before the first rejected one. *)
Theorem empty_field_is_fatal (service : WavefrontAPIService)
    (builder : DecoderBuilder) (p : Proc) :
  startPointListeners service "" builder p = Halted (LogFatal "Invalid port ") p
  /\ (forall s,
        startPointListeners service (String "," s) builder p
        = Halted (LogFatal "Invalid port ") p)
  /\ (forall s, exists bad,
        startPointListeners service (s ++ ",") builder p
        = Halted (LogFatal ("Invalid port " ++ bad))
            (after_listeners service p
               (make_listeners (heap p)
                  (good_prefix (map (fun e => (e, builder))
                                    (strings.Split s ","%char)))))).
Proof.
  split; [|split].
  - rewrite startPointListeners_items, start_items_spec. simpl.
    now rewrite after_listeners_nil.
  - intros s. rewrite startPointListeners_items, start_items_spec.
    cbn [strings.Split]. change (Ascii.eqb "," ",") with true. cbv iota.
    cbn [map first_bad good_prefix]. rewrite empty_entry_rejected.
    cbn [make_listeners]. now rewrite after_listeners_nil.
  - intros s. rewrite startPointListeners_items, start_items_spec.
    change (s ++ ",")%string with (s ++ String ","%char "")%string.
    rewrite Split_snoc, map_app, first_bad_app. cbn [map].
    destruct (first_bad (map (fun e => (e, builder)) (strings.Split s ","%char)))
      as [bad|] eqn:Hfb.
    + exists bad. f_equal. f_equal. f_equal.
      clear - Hfb. induction (map _ _) as [|[e b] items IH]; [discriminate|].
      simpl in *. destruct (port_ok e); [|reflexivity]. simpl. f_equal. auto.
    + exists "". cbn [first_bad]. rewrite empty_entry_rejected.
      rewrite (good_prefix_app _ _ Hfb). cbn [good_prefix].
      rewrite empty_entry_rejected, app_nil_r.
      now rewrite (good_prefix_all _ Hfb).
Qed.

(** ** [buildAgentMetrics]: the log and the registry *)

Lemma collect_lines (registry : gmap string agent.Metric) :
  Permutation (counter_lines (snd (agent.collect registry)))
              (map_to_list (fst (agent.collect registry)))
  /\ fst (agent.collect registry) = agent.counters registry.
Proof.
  unfold agent.collect, agent.Each, agent.counters.
  apply (map_fold_weak_ind
           (fun r m => Permutation (counter_lines (snd r)) (map_to_list (fst r))
                       /\ fst r = omap (fun i => match i with
                                                 | agent.Counter c => Some c
                                                 | _ => None
                                                 end) m)).
  - split; [|now rewrite omap_empty]. simpl. now rewrite map_to_list_empty.
  - intros name i m [acc logged] Hfresh [IH1 IH2]. simpl in IH1, IH2.
    assert (Hnone : acc !! name = None).
    { rewrite IH2, lookup_omap, Hfresh. reflexivity. }
    destruct i; simpl;
      try (split; [exact IH1|];
           rewrite omap_insert_None, delete_id by (rewrite <- ?IH2; auto);
           exact IH2).
    split.
    + unfold counter_lines in *. rewrite omap_app. cbn [omap list_omap].
      rewrite map_to_list_insert by exact Hnone.
      rewrite <- Permutation_cons_append. now constructor.
    + rewrite (omap_insert_Some _ _ _ _ count) by reflexivity. now rewrite IH2.
Qed.


(** X17.  For a registry that holds no counter, the empty registry
    included, [buildAgentMetrics] returns what [json.Marshal] yields for the
    empty map and logs no counter: its whole log is the error of
    [json.Marshal], if any. *)
Theorem no_counter_empty_payload
    (json_Marshal : gmap string Z -> string * option string)
    (registry : gmap string agent.Metric) :
  (forall name c, registry !! name <> Some (agent.Counter c)) ->
  agent.buildAgentMetrics json_Marshal registry
  = (fst (json_Marshal ∅),
     match snd (json_Marshal ∅) with
     | Some e => [agent.LogMarshalError e]
     | None => []
     end).
Proof.
  intros Hno.
  assert (Hc : agent.counters registry = ∅).
  { apply map_eq. intros name. unfold agent.counters.
    rewrite lookup_omap, lookup_empty.
    destruct (registry !! name) as [[]|] eqn:E; try reflexivity.
    now destruct (Hno name count). }
  unfold agent.buildAgentMetrics.
  destruct (collect_lines registry) as [Hperm Hfst].
  pose proof (collect_counters registry) as [_ Hlog].
  destruct (agent.collect registry) as [m logged]. simpl in *.
  rewrite Hc in Hfst. subst m. rewrite map_to_list_empty in Hperm.
  apply Permutation_nil_r in Hperm.
  assert (Hl : logged = []).
  { destruct logged as [|[name c|e] logged]; [reflexivity| |].
    - discriminate Hperm.
    - destruct (Hlog e). now left. }
  subst logged.
  destruct (json_Marshal ∅) as [b [e|]]; reflexivity.
Qed.

(** ** [buildVersion]: ordering and composition *)

Lemma Split_app_sep (a b : string) (sep : ascii) :
  strings.Split (a ++ String sep b) sep
  = (strings.Split a sep ++ strings.Split b sep)%list.
Proof.
  induction a as [|c a IH]; simpl.
  - now rewrite Ascii.eqb_refl.
  - destruct (Ascii.eqb c sep); rewrite IH; [reflexivity|].
    pose proof (Split_nonempty a sep) as Hne.
    destruct (strings.Split a sep); [contradiction|reflexivity].
Qed.

Lemma accumulate_snoc (xs : list Z) (x : Z) :
  accumulate_base1000 (xs ++ [x]) = accumulate_base1000 xs * 1000 + x.
Proof. unfold accumulate_base1000. now rewrite fold_left_app. Qed.

Lemma small_digits (s : string) :
  all_digits s = true -> (String.length s <= 3)%nat ->
  0 <= digits_value s 0 < 1000.
Proof.
  intros Hd Hlen. pose proof (digits_value_ge s 0 Hd ltac:(lia)).
  pose proof (digits_value_lt_pow s 0 Hd ltac:(lia)) as Hlt.
  assert (10 ^ Z.of_nat (String.length s) <= 10 ^ 3)
    by (apply Z.pow_le_mono_r; lia).
  lia.
Qed.

Lemma buildVersion_three_digits (sa sb sc : string) :
  all_digits sa = true -> all_digits sb = true -> all_digits sc = true ->
  sa <> "" -> sb <> "" -> sc <> "" ->
  (String.length sa <= 3)%nat -> (String.length sb <= 3)%nat ->
  (String.length sc <= 3)%nat ->
  buildVersion (sa ++ "." ++ sb ++ "." ++ sc)%string
  = (digits_value sa 0 * 1000000 + digits_value sb 0 * 1000 + digits_value sc 0)
    * 1000000.
Proof.
  intros Ha Hb Hc Hna Hnb Hnc La Lb Lc.
  pose proof (small_digits _ Ha La). pose proof (small_digits _ Hb Lb).
  pose proof (small_digits _ Hc Lc).
  change (sa ++ "." ++ sb ++ "." ++ sc)%string
    with (sa ++ String "."%char (sb ++ String "."%char sc))%string.
  rewrite buildVersion_three_segments by (now apply digits_no_dot).
  rewrite !segment_value_digits by (assumption || lia).
  rewrite wrap64_id; [ring|].
  unfold in_int64, MinInt64, MaxInt64, two63. lia.
Qed.

(** X18.  On versions of three segments of one to three digits each,
    [buildVersion] is exact, [(a*1000000 + b*1000 + c) * 1000000], and it
    preserves the order of versions: one version's code is below another's
    exactly when its (a, b, c) is below the other's, segment by segment;
    in particular distinct versions get distinct codes. *)
Theorem buildVersion_orders_versions (sa sb sc sa' sb' sc' : string) :
  Forall (fun s => all_digits s = true /\ s <> ""
                   /\ (String.length s <= 3)%nat)
         [sa; sb; sc; sa'; sb'; sc'] ->
  let a := digits_value sa 0 in
  let b := digits_value sb 0 in
  let c := digits_value sc 0 in
  let a' := digits_value sa' 0 in
  let b' := digits_value sb' 0 in
  let c' := digits_value sc' 0 in
  buildVersion (sa ++ "." ++ sb ++ "." ++ sc)%string
  = (a * 1000000 + b * 1000 + c) * 1000000
  /\ (buildVersion (sa ++ "." ++ sb ++ "." ++ sc)%string
      < buildVersion (sa' ++ "." ++ sb' ++ "." ++ sc')%string
      <-> a < a' \/ (a = a' /\ (b < b' \/ (b = b' /\ c < c'))))
  /\ (buildVersion (sa ++ "." ++ sb ++ "." ++ sc)%string
      = buildVersion (sa' ++ "." ++ sb' ++ "." ++ sc')%string
      <-> a = a' /\ b = b' /\ c = c').
Proof.
  intros Hall a b c a' b' c'.
  repeat match goal with
         | H : Forall _ (_ :: _) |- _ =>
             apply Forall_cons in H as [(? & ? & ?) H]
         end.
  rewrite !buildVersion_three_digits by assumption.
  fold a b c a' b' c'.
  assert (0 <= a < 1000) by (now apply small_digits).
  assert (0 <= b < 1000) by (now apply small_digits).
  assert (0 <= c < 1000) by (now apply small_digits).
  assert (0 <= a' < 1000) by (now apply small_digits).
  assert (0 <= b' < 1000) by (now apply small_digits).
  assert (0 <= c' < 1000) by (now apply small_digits).
  split; [reflexivity|]. split; lia.
Qed.

(** X19.  Appending a segment to a version: with [seg] free of dots,
    [buildVersion] of [v.seg] is obtained from [buildVersion] of [v] and the
    value of [seg] alone, in 64-bit arithmetic, by a rule that depends on
    the number of segments of [v]: one segment, add 1000 times the value;
    two segments, multiply by 1000000 and add 1000000 times the value;
    three or more, multiply by 1000 and add 1000000 times the value. *)
Theorem buildVersion_append_segment (v seg : string) :
  has_byte "."%char seg = false ->
  let n := length (strings.Split v "."%char) in
  buildVersion (v ++ "." ++ seg)%string
  = if (n =? 1)%nat then wrap64 (buildVersion v + segment_value seg * 1000)
    else if (n =? 2)%nat then
      wrap64 (buildVersion v * 1000000 + segment_value seg * 1000000)
    else wrap64 (buildVersion v * 1000 + segment_value seg * 1000000).
Proof.
  intros Hseg n.
  change (v ++ "." ++ seg)%string with (v ++ String "."%char seg)%string.
  rewrite !buildVersion_formula, Split_app_sep, (Split_no_sep _ _ Hseg).
  rewrite map_app, length_app. cbn [map length]. fold n.
  rewrite accumulate_snoc.
  set (acc := accumulate_base1000 (map segment_value (strings.Split v "."%char))).
  assert (Hn : n <> 0%nat).
  { unfold n. pose proof (Split_nonempty v "."%char).
    destruct (strings.Split v "."%char); [contradiction|discriminate]. }
  unfold version_scale.
  destruct n as [|[|[|n]]]; [contradiction| | |].
  - cbn [Nat.add Nat.eqb]. rewrite wrap64_add_l. f_equal. ring.
  - cbn [Nat.add Nat.eqb]. rewrite <- (wrap64_add_l (wrap64 _ * _)),
      wrap64_mul_l, wrap64_add_l. f_equal. ring.
  - replace (S (S (S n)) + 1 =? 2)%nat with false
      by (symmetry; apply Nat.eqb_neq; lia).
    cbn [Nat.eqb]. rewrite <- (wrap64_add_l (wrap64 _ * _)),
      wrap64_mul_l, wrap64_add_l. f_equal. ring.
Qed.

(** ** Why a run dies *)

Lemma first_bad_Some (items : list (string * DecoderBuilder)) (s : string) :
  first_bad items = Some s -> ~ valid_entry s /\ In s (map fst items).
Proof.
  induction items as [|[e b] items IH]; simpl; [discriminate|].
  destruct (port_ok e) eqn:E.
  - intros H. destruct (IH H). auto.
  - intros H. inversion H; subst. split; [|now left].
    intros Hv. apply port_ok_valid in Hv. congruence.
Qed.

Lemma hostnamed_None (w : World) (eff : Flags) :
  hostnamed w eff = None ->
  fHostnamePtr eff = "" /\ exists err, os_Hostname w = inr err.
Proof.
  unfold hostnamed.
  destruct (String.eqb_spec (fHostnamePtr eff) ""); [|discriminate].
  destruct (os_Hostname w) as [|err]; [discriminate|]. eauto.
Qed.

(** The three causes of a [log.Fatal] in the main goroutine, each told by
    its message. *)
Lemma main_goroutine_fatal (w : World) (msg : string) (p : Proc) :
  run_main w = Halted (LogFatal msg) p ->
  (exists err,
      msg = "Error loading config file: " ++ err
      /\ fCfgPtr (flag_Parse w) <> ""
      /\ config_LoadConfig w (fCfgPtr (flag_Parse w)) = inr err)
  \/ (msg = "Error resolving hostname"
      /\ exists eff err,
           effective_flags w = Some eff
           /\ fHostnamePtr eff = "" /\ os_Hostname w = inr err)
  \/ (exists s eff,
        msg = "Invalid port " ++ s
        /\ effective_flags w = Some eff
        /\ In s (entries (fWavefrontPortsPtr eff) ++ entries (fOpenTSDBPortsPtr eff))
        /\ ~ valid_entry s).
Proof.
  rewrite run_main_unfold. unfold effective_flags.
  change (flag_Parse w) with (flags (start_state w)).
  destruct (checkFlags w (start_state w)) as [[] p1|h p1] eqn:E.
  - destruct (first_bad (plan (flags p1))) as [s|] eqn:Hfb.
    + intros H. inversion H; subst. right; right.
      apply checkFlags_Done in E as (_ & (eff & He & _ & _ & Hh & _) & _).
      destruct (hostnamed_keeps _ _ _ Hh) as (Hplan & _).
      rewrite Hplan in Hfb. apply first_bad_Some in Hfb as [Hbad Hin].
      exists s, eff. split; [reflexivity|]. split; [exact He|].
      split; [|exact Hbad].
      unfold plan in Hin. rewrite map_app, !map_map in Hin. simpl in Hin.
      now rewrite !map_id in Hin.
    + rewrite waitForShutdown_loop_spec.
      destruct (has_interrupt (signals w)); discriminate.
  - intros H. inversion H; subst.
    apply checkFlags_halt_kind in E
      as [[_ Hk]|[_ [[_ (err & Hk & Hc & Hl)]|(eff & He & [[_ Hk]|(_ & _ & [[Hh Hk]|(f' & err & _ & _ & _ & Hk)])])]]];
      try discriminate; inversion Hk; subst.
    + left. eauto.
    + right; left. split; [reflexivity|].
      apply hostnamed_None in Hh as (Hempty & err & Hos). eauto.
Qed.

(** X21.  A run panics only in [setupLogger]: the effective log file is
    named and [os.Create] failed on it with the error the panic carries;
    a run without log file never panics. *)
Theorem panic_tells_cause (w : World) (err : string) (p : Proc) :
  run_main w = Halted (Panic err) p ->
  exists eff,
    effective_flags w = Some eff
    /\ fLogFilePtr eff <> ""
    /\ os_Create w (fLogFilePtr eff) = Some err
    /\ started (trace p) = [] /\ trace p = [].
Proof.
  rewrite run_main_unfold. unfold effective_flags.
  change (flag_Parse w) with (flags (start_state w)).
  destruct (checkFlags w (start_state w)) as [[] p1|h p1] eqn:E.
  - destruct (first_bad (plan (flags p1))); [discriminate|].
    rewrite waitForShutdown_loop_spec.
    destruct (has_interrupt (signals w)); discriminate.
  - intros H. inversion H; subst.
    apply checkFlags_halt_kind in E as Hk.
    destruct Hk
      as [[_ Hk]|[Hv [[_ (e & Hk & _)]|(eff & He & [[_ Hk]|(Ht & Hs & [[_ Hk]|(f' & e & Hh & Hl & Hc & Hk)])])]]];
      try discriminate. inversion Hk; subst.
    rewrite (checkFlags_logger_error _ _ _ _ _ Hv He Ht Hs Hh Hl Hc) in E.
    inversion E; subst. exists eff. auto.
Qed.

(** ** The further properties on concrete runs *)

Lemma exit_status_meaning_witness :
  fVersionPtr (flag_Parse demo_world) = true
  \/ ((exists p0, startup demo_world (start_state demo_world) = Done tt p0)
      /\ In Interrupt (signals demo_world)).
Proof.
  destruct (exit_status_meaning demo_world 0 (final (run_main demo_world)))
    as [[_ H]|[H _]].
  - vm_compute. reflexivity.
  - exact H.
  - discriminate H.
Defined.

Lemma missing_required_flag_exits_witness :
  run_main (world_of (flags_with "" "2878" "4242"))
  = Halted (OsExit 1)
      (mkProc (flags_with "" "2878" "4242") [] 0
              [LogPrint "Missing token"; FlagUsage]).
Proof.
  apply (missing_required_flag_exits (world_of (flags_with "" "2878" "4242"))
           (flags_with "" "2878" "4242")); [reflexivity|reflexivity|].
  left. reflexivity.
Defined.

Lemma version_flag_prints_and_exits_witness :
  run_main (harsh_world (flags_opts (flags_with "" "" "") "missing.conf" "" true))
  = Halted (OsExit 0)
      (mkProc (flags_opts (flags_with "" "" "") "missing.conf" "" true) [] 0
              [LogPrint "wavefront-proxy vv0.9.1 (git: master c0ffee)"]).
Proof.
  apply (proj1 (version_flag_prints_and_exits
                  (harsh_world (flags_opts (flags_with "" "" "")
                                           "missing.conf" "" true))
                  eq_refl)).
Defined.

Lemma config_load_failure_is_fatal_witness :
  run_main (world_of (flags_opts demo_flags "missing.conf" "" false))
  = Halted (LogFatal "Error loading config file: no such file")
      (start_state (world_of (flags_opts demo_flags "missing.conf" "" false))).
Proof.
  apply (config_load_failure_is_fatal
           (world_of (flags_opts demo_flags "missing.conf" "" false))
           "no such file"); [reflexivity|discriminate|reflexivity].
Defined.

Lemma log_file_failure_panics_witness :
  run_main (harsh_world (flags_opts (flags_with "tok" "2878" "") "" "proxy.log" false))
  = Halted (Panic "permission denied")
      (mkProc (flags_opts (flags_with "tok" "2878" "") "" "proxy.log" false)
              [] 0 []).
Proof.
  apply (log_file_failure_panics
           (harsh_world (flags_opts (flags_with "tok" "2878" "") "" "proxy.log" false))
           (flags_opts (flags_with "tok" "2878" "") "" "proxy.log" false)
           (flags_opts (flags_with "tok" "2878" "") "" "proxy.log" false)
           "permission denied");
    try reflexivity; discriminate.
Defined.

Lemma checkFlags_is_silent_witness :
  exists eff,
    effective_of demo_world demo_flags = Some eff
    /\ log_lines (trace (final (checkFlags demo_world (start_state demo_world))))
       = [].
Proof.
  destruct (checkFlags_is_silent demo_world (start_state demo_world)
              (final (checkFlags demo_world (start_state demo_world))))
    as (eff & He & _ & Hlog & _).
  - vm_compute. reflexivity.
  - exists eff. split; [exact He|exact Hlog].
Defined.




Lemma first_rejected_entry_is_named_witness :
  startListeners demo_service
    (mkProc (flags_with "tok" "2878,http" "4242") [] 0 [])
  = Halted (LogFatal "Invalid port http")
      (after_listeners demo_service
         (mkProc (flags_with "tok" "2878,http" "4242") [] 0 [])
         (make_listeners 0 [("2878", GraphiteBuilder)])).
Proof.
  apply (proj1 (first_rejected_entry_is_named demo_service
                  (mkProc (flags_with "tok" "2878,http" "4242") [] 0 [])
                  [("2878", GraphiteBuilder)] [("4242", OpenTSDBBuilder)]
                  "http" GraphiteBuilder eq_refl
                  ltac:(repeat constructor; apply valid_entry_check; reflexivity)
                  ltac:(intros [H _]; discriminate H))).
Defined.

Lemma no_counter_empty_payload_witness :
  agent.buildAgentMetrics (fun _ => ("{}", None)) gauge_registry = ("{}", []).
Proof.
  apply (no_counter_empty_payload (fun _ => ("{}", None)) gauge_registry).
  intros name c H. unfold gauge_registry in H.
  apply lookup_insert_Some in H as [[_ H]|[_ H]]; [discriminate H|].
  rewrite lookup_empty in H. discriminate H.
Defined.

Lemma buildVersion_orders_versions_witness :
  buildVersion "0.9.1" = 9001000000
  /\ buildVersion "0.9.1" < buildVersion "0.10.0".
Proof.
  destruct (buildVersion_orders_versions "0" "9" "1" "0" "10" "0")
    as (H1 & H2 & _).
  - repeat constructor; discriminate.
  - split; [exact H1|]. apply H2. right. split; [reflexivity|]. left.
    reflexivity.
Defined.

Lemma buildVersion_append_segment_witness :
  buildVersion "0.9.1" = wrap64 (buildVersion "0.9" * 1000000 + 1 * 1000000).
Proof.
  exact (buildVersion_append_segment "0.9" "1" eq_refl).
Defined.

Lemma panic_tells_cause_witness :
  exists eff,
    effective_flags
      (harsh_world (flags_opts (flags_with "tok" "2878" "") "" "proxy.log" false))
    = Some eff
    /\ fLogFilePtr eff <> ""
    /\ os_Create
         (harsh_world (flags_opts (flags_with "tok" "2878" "") "" "proxy.log" false))
         (fLogFilePtr eff)
       = Some "permission denied".
Proof.
  destruct (panic_tells_cause
              (harsh_world (flags_opts (flags_with "tok" "2878" "") "" "proxy.log" false))
              "permission denied"
              (mkProc (flags_opts (flags_with "tok" "2878" "") "" "proxy.log" false)
                      [] 0 []))
    as (eff & H1 & H2 & H3 & _).
  - vm_compute. reflexivity.
  - exists eff. auto.
Defined.

(** * The process: [main] beside the pprof goroutine *)

Lemma check_not_spawn (t : list Event) :
  Forall check_event t -> Forall not_spawn t.
Proof.
  intros H. eapply Forall_impl; [exact H|].
  intros e He. destruct e; simpl in *; tauto.
Qed.

Lemma shutdown_not_spawn (t : list Event) :
  Forall shutdown_event t -> Forall not_spawn t.
Proof.
  intros H. eapply Forall_impl; [exact H|].
  intros e He. destruct e; simpl in *; tauto.
Qed.

Lemma starts_not_spawn (f : Flags) (service : WavefrontAPIService)
    (ls : list PointListener) :
  Forall not_spawn (map (start_event f service) ls).
Proof.
  induction ls as [|l ls IH]; cbn [map]; constructor; [exact I|exact IH].
Qed.

Lemma spawn_index_none (t : list Event) :
  Forall not_spawn t -> spawn_index t = None.
Proof.
  induction 1 as [|e t He _ IH]; [reflexivity|].
  destruct e; cbn [spawn_index]; try (now rewrite IH). destruct He.
Qed.

Lemma spawn_index_skip (t t' : list Event) :
  Forall not_spawn t ->
  spawn_index (t ++ t') = (fun i => (length t + i)%nat) <$> spawn_index t'.
Proof.
  induction 1 as [|e t He _ IH]; cbn [app length].
  - now destruct (spawn_index t').
  - destruct e; cbn [spawn_index];
      try (rewrite IH; now destruct (spawn_index t')).
    destruct He.
Qed.

(** The [go] statement is the third event after [checkFlags], when the
    pprof address is set. *)
Lemma main_spawn (w : World) (p1 : Proc) :
  checkFlags w (start_state w) = Done tt p1 ->
  spawn_index (trace (final (run_main w)))
  = if String.eqb (fPprofAddr (flags p1)) "" then None
    else Some (length (trace p1) + 2)%nat.
Proof.
  intros E. destruct (run_trace w p1 E) as (tail & -> & Htail).
  pose proof (returned_check_trace w p1 E) as Hchk.
  rewrite spawn_index_skip by now apply check_not_spawn.
  unfold pre_events.
  destruct (String.eqb (fPprofAddr (flags p1)) "").
  - rewrite spawn_index_none; [reflexivity|].
    cbn [app]. do 3 (constructor; [exact I|]).
    apply Forall_app. split; [apply starts_not_spawn|now apply shutdown_not_spawn].
  - reflexivity.
Qed.

Lemma main_flags (w : World) (p1 : Proc) :
  checkFlags w (start_state w) = Done tt p1 ->
  flags (final (run_main w)) = flags p1.
Proof.
  intros E. rewrite run_main_unfold, E.
  destruct (first_bad (plan (flags p1))); [reflexivity|].
  rewrite waitForShutdown_loop_spec.
  now destruct (has_interrupt (signals w)).
Qed.

Lemma pprof_goroutine_run (n : Pprof) (f : Flags) :
  pprof_goroutine n (mkProc f [] 0 [])
  = Halted (match http_ListenAndServe n (fPprofAddr f) with
            | Some err => LogFatal err
            | None => Parked
            end)
      (mkProc f [] 0
         [LogPrint ("Starting pprof HTTP server at: " ++ fPprofAddr f)]).
Proof.
  unfold pprof_goroutine. run_m.
  now destruct (http_ListenAndServe n (fPprofAddr f)).
Qed.

(** When [checkFlags] ends the process there is no second goroutine. *)
Lemma process_halted (w : World) (n : Pprof) (h : Halt) (p : Proc) :
  checkFlags w (start_state w) = Halted h p ->
  process w n = mkOutcome (trace p) [] h.
Proof.
  intros E. destruct (halted_run_trace w h p E) as (evs & Htr & Hall).
  unfold process. cbv zeta. rewrite Htr.
  rewrite spawn_index_none by now apply check_not_spawn.
  rewrite <- Htr, run_main_unfold, E. reflexivity.
Qed.

(** The process once [checkFlags] has returned, case by case. *)
Lemma process_checked (w : World) (n : Pprof) (p1 : Proc) :
  checkFlags w (start_state w) = Done tt p1 ->
  let r := run_main w in
  let tr := trace (final r) in
  let address := fPprofAddr (flags p1) in
  let line := LogPrint ("Starting pprof HTTP server at: " ++ address) in
  let i := (length (trace p1) + 2)%nat in
  let rest := (length tr - S i)%nat in
  let logged := (pprof_log_after n <=? rest)%nat || is_parked (main_end r) in
  let fatal_at := (pprof_log_after n + pprof_fail_after n)%nat in
  process w n
  = if String.eqb address "" then mkOutcome tr [] (main_end r)
    else match http_ListenAndServe n address with
         | Some err =>
             if (fatal_at <? rest)%nat || is_parked (main_end r)
             then mkOutcome (take (S i + fatal_at) tr) [line] (LogFatal err)
             else mkOutcome tr (if logged then [line] else []) (main_end r)
         | None => mkOutcome tr (if logged then [line] else []) (main_end r)
         end.
Proof.
  intros E. cbv zeta. unfold process. cbv zeta.
  rewrite (main_spawn w p1 E), (main_flags w p1 E).
  destruct (String.eqb (fPprofAddr (flags p1)) ""); [reflexivity|].
  rewrite pprof_goroutine_run.
  now destruct (http_ListenAndServe n (fPprofAddr (flags p1))).
Qed.

(** The events of the main goroutine in the process are an initial part of
    those of its own run. *)
Lemma process_prefix (w : World) (n : Pprof) :
  exists k, main_events (process w n) = take k (trace (final (run_main w))).
Proof.
  unfold process. cbv zeta.
  repeat case_match; cbn [main_events];
    first [ eexists; reflexivity
          | exists (length (trace (final (run_main w)))); now rewrite firstn_all ].
Qed.

Lemma In_take {A} (k : nat) (l : list A) (x : A) : In x (take k l) -> In x l.
Proof.
  intros H. rewrite <- (take_drop k l). apply in_or_app. now left.
Qed.

Lemma effective_pprof (w : World) (p1 : Proc) :
  checkFlags w (start_state w) = Done tt p1 ->
  exists eff,
    effective_flags w = Some eff
    /\ hostnamed w eff = Some (flags p1)
    /\ fPprofAddr (flags p1) = fPprofAddr eff
    /\ plan (flags p1) = plan eff.
Proof.
  intros E. apply checkFlags_Done in E as (_ & (eff & He & _ & _ & Hh & _) & _).
  exists eff. split; [exact He|]. split; [exact Hh|].
  split; [apply (hostnamed_fields _ _ _ Hh)|apply (hostnamed_keeps _ _ _ Hh)].
Qed.

(** How the process ends: as the main goroutine ends it, all of whose
    events have then happened, or by the [log.Fatal] of the pprof
    goroutine, with the error of [ListenAndServe]. *)
Lemma process_ended (w : World) (n : Pprof) :
  (ended (process w n) = main_end (run_main w)
   /\ main_events (process w n) = trace (final (run_main w))
   /\ (forall eff p1,
          effective_flags w = Some eff ->
          checkFlags w (start_state w) = Done tt p1 ->
          pprof_serves n eff \/ main_end (run_main w) <> Parked))
  \/ (exists eff p1 err,
        effective_flags w = Some eff
        /\ checkFlags w (start_state w) = Done tt p1
        /\ fPprofAddr eff <> ""
        /\ http_ListenAndServe n (fPprofAddr eff) = Some err
        /\ ended (process w n) = LogFatal err).
Proof.
  destruct (checkFlags w (start_state w)) as [[] p1|h p1] eqn:E.
  - destruct (effective_pprof w p1 E) as (eff & He & _ & Hp & _).
    rewrite (process_checked w n p1 E). cbv zeta. rewrite Hp.
    destruct (String.eqb_spec (fPprofAddr eff) "") as [Hempty|Hset].
    + left. cbn [ended main_events]. repeat split.
      intros eff' p1' He' _. left. left. congruence.
    + destruct (http_ListenAndServe n (fPprofAddr eff)) as [err|] eqn:Hs.
      * match goal with
        | |- context [if ?c then mkOutcome _ _ (LogFatal _) else _] =>
            destruct c eqn:Hc
        end.
        -- right. exists eff, p1, err. cbn [ended]. auto.
        -- left. cbn [ended main_events]. repeat split.
           intros eff' p1' _ _. right. intros Hpk.
           apply orb_false_elim in Hc as [_ Hc]. rewrite Hpk in Hc.
           discriminate Hc.
      * left. cbn [ended main_events]. repeat split.
        intros eff' p1' He' _. left. right. congruence.
  - left. rewrite (process_halted w n h p1 E), run_main_unfold, E.
    cbn [ended main_events main_end final]. repeat split.
    intros eff p1' _ H. discriminate H.
Qed.

Lemma omap_take_nil {A B} (f : A -> option B) (k : nat) (l : list A) :
  omap f l = [] -> omap f (take k l) = [].
Proof.
  revert k. induction l as [|x l IH]; intros [|k];
    cbn [firstn omap list_omap]; auto.
  destruct (f x); [discriminate|]. apply IH.
Qed.

Lemma started_take (k : nat) (pre tail : list Event) (f : Flags)
    (service : WavefrontAPIService) (ls : list PointListener) :
  started pre = [] -> started tail = [] ->
  started (take k (pre ++ map (start_event f service) ls ++ tail))
  = take (k - length pre) ls.
Proof.
  intros Hpre Htail. rewrite !take_app, !started_app, firstn_map.
  rewrite started_start_events.
  unfold started in *. rewrite !omap_take_nil by assumption.
  now rewrite app_nil_r.
Qed.

Lemma make_listeners_take (base j : nat) (items : list (string * DecoderBuilder)) :
  take j (make_listeners base items) = make_listeners base (take j items).
Proof.
  revert base j. induction items as [|[s b] items IH]; intros base [|j];
    cbn [make_listeners firstn]; try reflexivity.
  now rewrite IH.
Qed.

(** The listeners started in the process: an initial part of those of the
    valid prefix of the plan, all of them when the pprof server spares the
    main goroutine long enough. *)
Lemma process_started (w : World) (n : Pprof) (p1 : Proc) :
  checkFlags w (start_state w) = Done tt p1 ->
  exists j,
    started (main_events (process w n))
    = take j (make_listeners 0 (good_prefix (plan (flags p1))))
    /\ (fPprofAddr (flags p1) = ""
        \/ http_ListenAndServe n (fPprofAddr (flags p1)) = None
        \/ (length (good_prefix (plan (flags p1)))
            < pprof_log_after n + pprof_fail_after n)%nat ->
        (length (good_prefix (plan (flags p1))) <= j)%nat).
Proof.
  intros E. rewrite (process_checked w n p1 E). cbv zeta.
  destruct (run_trace w p1 E) as (tail & Htr & Htail).
  set (ls := make_listeners 0 (good_prefix (plan (flags p1)))) in *.
  assert (Hlen : length ls = length (good_prefix (plan (flags p1))))
    by apply make_listeners_length.
  assert (Hp1 : started (trace p1) = []).
  { apply checkFlags_Done in E. tauto. }
  assert (Htl : started tail = []).
  { unfold started. no_such_event Htail. }
  assert (Hpre : started (trace p1 ++ pre_events w (flags p1)) = []).
  { now rewrite started_app, Hp1, started_pre_events. }
  assert (Hfull : started (trace (final (run_main w))) = take (length ls) ls).
  { rewrite Htr, firstn_all, !started_app, Hp1, started_pre_events,
      started_start_events, Htl.
    now rewrite app_nil_r. }
  destruct (String.eqb_spec (fPprofAddr (flags p1)) "") as [Hempty|Hset].
  { exists (length ls). cbn [main_events]. split; [exact Hfull|lia]. }
  destruct (http_ListenAndServe n (fPprofAddr (flags p1))) as [err|] eqn:Hs.
  2:{ exists (length ls). cbn [main_events]. split; [exact Hfull|lia]. }
  match goal with
  | |- context [if ?c then mkOutcome _ _ (LogFatal _) else _] => destruct c
  end.
  2:{ exists (length ls). cbn [main_events]. split; [exact Hfull|lia]. }
  cbn [main_events]. rewrite Htr, (app_assoc (trace p1)).
  rewrite started_take by assumption.
  eexists. split; [reflexivity|].
  intros [H|[H|H]]; [contradiction|discriminate|].
  rewrite length_app. unfold pre_events.
  apply String.eqb_neq in Hset. rewrite Hset. cbn [app length]. lia.
Qed.

(** C3 (as amended).  With the effective configuration [eff] (the flags,
    overridden by the configuration file when one is named and loads), and
    whatever the pprof server does:
    - if the token or the server URL is the empty string, [startup] does
      not return, the process ends and no listener has been started;
    - if some entry of a port list is not a decimal integer, [startup] does
      not return, the process ends, and the listeners started are those of
      an initial run of entries that are all valid, so none at or past the
      offending entry;
    - if the token and server are non-empty, every entry is a decimal
      integer in the range of [int], the version flag is unset, the
      hostname is set or can be resolved, the log file, if any, can be
      created, and the pprof server spares the startup (no pprof address is
      set, or [http.ListenAndServe] keeps serving, or it returns its error
      after the listeners), then [startup] returns in the main goroutine
      and the process has started one listener per entry. *)
Theorem startup_configuration_errors (w : World) (n : Pprof) (eff : Flags) :
  effective_flags w = Some eff ->
  (fTokenPtr eff = "" \/ fServerPtr eff = "" ->
   (forall p, startup w (start_state w) <> Done tt p)
   /\ terminated (ended (process w n))
   /\ started (main_events (process w n)) = [])
  /\ (Exists (fun it => decimal_integer (fst it) = false) (plan eff) ->
      (forall p, startup w (start_state w) <> Done tt p)
      /\ exists k,
           terminated (ended (process w n))
           /\ started (main_events (process w n))
              = make_listeners 0 (take k (plan eff))
           /\ Forall (fun it => valid_entry (fst it)) (take k (plan eff)))
  /\ (fTokenPtr eff <> "" -> fServerPtr eff <> "" ->
      Forall (fun it => valid_entry (fst it)) (plan eff) ->
      fVersionPtr (flag_Parse w) = false ->
      hostnamed w eff <> None -> logger_ok w eff = true ->
      pprof_spares n eff ->
      (exists p, startup w (start_state w) = Done tt p
                 /\ started (trace p) = make_listeners 0 (plan eff))
      /\ started (main_events (process w n)) = make_listeners 0 (plan eff)).
Proof.
  intros He.
  destruct (startup_outcomes w eff He) as (Hmissing & Hbad & Hgood).
  destruct (checkFlags w (start_state w)) as [[] p1|h p1] eqn:E.
  - (* [checkFlags] returned *)
    destruct (effective_pprof w p1 E) as (eff' & He' & Hh & Hp & Hplan).
    assert (eff' = eff) by congruence. subst eff'.
    destruct (process_started w n p1 E) as (j & Hst & Hall).
    rewrite Hplan in Hst, Hall. rewrite Hp in Hall.
    split; [|split].
    + intros Hm. exfalso.
      apply checkFlags_Done in E as (_ & (eff' & He'' & Ht & Hs & _) & _).
      unfold effective_flags in He. cbn [start_state flags] in He''.
      assert (eff' = eff) by congruence. subst eff'. tauto.
    + intros Hex.
      destruct (Hbad Hex) as (h & p & k & Hrun & Hterm & _).
      split; [intros p' Hp'; congruence|].
      exists (Nat.min j (length (good_prefix (plan eff)))).
      rewrite <- take_take, <- good_prefix_take, <- make_listeners_take.
      split; [|split; [exact Hst|apply Forall_take, good_prefix_valid]].
      destruct (process_ended w n)
        as [(Hend & _)|(_ & _ & err & _ & _ & _ & _ & Hend)];
        rewrite Hend; [|discriminate].
      unfold run_main, main, mbind, M_bind. rewrite Hrun. exact Hterm.
    + intros Htok Hsrv Hvalid Hv Hhost Hlog Hspare.
      split; [now apply Hgood|].
      apply first_bad_None in Hvalid.
      rewrite (good_prefix_all _ Hvalid) in Hst, Hall.
      rewrite Hst, take_ge; [reflexivity|].
      rewrite make_listeners_length. apply Hall.
      destruct Hspare as [[H|H]|H]; auto.
  - (* [checkFlags] ended the process *)
    rewrite (process_halted w n h p1 E). cbn [ended main_events].
    pose proof E as E0.
    apply checkFlags_Halted in E as (Hterm & Hwhy & _ & _ & Hst & _).
    cbn [start_state trace] in Hst.
    split; [|split].
    + intros _.
      split; [intros p Hp; rewrite startup_unfold, E0 in Hp; discriminate Hp|].
      split; [exact Hterm|exact Hst].
    + intros _.
      split; [intros p Hp; rewrite startup_unfold, E0 in Hp; discriminate Hp|].
      exists 0%nat. rewrite take_0. cbn [make_listeners].
      repeat split; [exact Hterm|exact Hst|constructor].
    + intros Htok Hsrv Hvalid Hv Hhost Hlog _.
      destruct (Hgood Htok Hsrv Hvalid Hv Hhost Hlog) as (p & Hrun & _).
      rewrite startup_unfold, E0 in Hrun. discriminate Hrun.
Qed.

Lemma startup_configuration_errors_witness :
  ((exists p,
       startup (world_of (pprof_flags "localhost:6060"))
               (start_state (world_of (pprof_flags "localhost:6060")))
       = Done tt p
       /\ started (trace p)
          = make_listeners 0 (plan (pprof_flags "localhost:6060")))
   /\ started (main_events
                 (process (world_of (pprof_flags "localhost:6060")) serving))
      = make_listeners 0 (plan (pprof_flags "localhost:6060")))
  /\ ((forall p,
          startup (world_of (flags_with "" "2878" "4242"))
                  (start_state (world_of (flags_with "" "2878" "4242")))
          <> Done tt p)
      /\ terminated (ended (process (world_of (flags_with "" "2878" "4242")) serving))
      /\ started (main_events
                    (process (world_of (flags_with "" "2878" "4242")) serving))
         = [])
  /\ ((forall p,
          startup (world_of (flags_with "tok" "2878,http" "4242"))
                  (start_state (world_of (flags_with "tok" "2878,http" "4242")))
          <> Done tt p)
      /\ exists k,
        terminated
          (ended (process (world_of (flags_with "tok" "2878,http" "4242"))
                          (failing 0 2)))
        /\ started
             (main_events (process (world_of (flags_with "tok" "2878,http" "4242"))
                                   (failing 0 2)))
           = make_listeners 0 (take k (plan (flags_with "tok" "2878,http" "4242")))
        /\ Forall (fun it => valid_entry (fst it))
                  (take k (plan (flags_with "tok" "2878,http" "4242"))))
  /\ started (main_events (process (world_of (pprof_flags "nonsense")) (failing 0 4)))
     = make_listeners 0 (plan (pprof_flags "nonsense")).
Proof.
  split; [|split; [|split]].
  - apply (startup_configuration_errors (world_of (pprof_flags "localhost:6060"))
             serving (pprof_flags "localhost:6060") eq_refl);
      try discriminate; try reflexivity.
    + repeat constructor; apply valid_entry_check; reflexivity.
    + left. right. reflexivity.
  - apply (startup_configuration_errors
             (world_of (flags_with "" "2878" "4242")) serving
             (flags_with "" "2878" "4242") eq_refl).
    left. reflexivity.
  - apply (startup_configuration_errors
             (world_of (flags_with "tok" "2878,http" "4242")) (failing 0 2)
             (flags_with "tok" "2878,http" "4242") eq_refl).
    apply Exists_cons_tl, Exists_cons_hd. reflexivity.
  - apply (startup_configuration_errors (world_of (pprof_flags "nonsense"))
             (failing 0 4) (pprof_flags "nonsense") eq_refl);
      try discriminate; try reflexivity.
    + repeat constructor; apply valid_entry_check; reflexivity.
    + right. simpl. lia.
Defined.

(** C3 as stated fails.  In the first run the token and server are set and
    every port entry is a decimal integer, yet [log.Fatal] ends the process
    with no listener started, because the entry does not fit an [int].  In
    the second run the token and server are set and the three port entries
    are valid, yet no listener is started: the pprof server cannot listen
    on its address and the goroutine's [log.Fatal] ends the process
    first. *)
Lemma startup_rejects_decimal_port :
  (effective_flags (world_of (flags_with "tok" "99999999999999999999" "4242"))
   = Some (flags_with "tok" "99999999999999999999" "4242")
   /\ fTokenPtr (flags_with "tok" "99999999999999999999" "4242") <> ""
   /\ fServerPtr (flags_with "tok" "99999999999999999999" "4242") <> ""
   /\ Forall (fun it => decimal_integer (fst it) = true)
             (plan (flags_with "tok" "99999999999999999999" "4242"))
   /\ (exists p,
         startup (world_of (flags_with "tok" "99999999999999999999" "4242"))
                 (start_state (world_of (flags_with "tok" "99999999999999999999" "4242")))
         = Halted (LogFatal "Invalid port 99999999999999999999") p
         /\ started (trace p) = [])
   /\ ended (process (world_of (flags_with "tok" "99999999999999999999" "4242"))
                     serving)
      = LogFatal "Invalid port 99999999999999999999"
   /\ started (main_events
                 (process (world_of (flags_with "tok" "99999999999999999999" "4242"))
                          serving))
      = [])
  /\ (effective_flags (world_of (pprof_flags "nonsense"))
      = Some (pprof_flags "nonsense")
      /\ fTokenPtr (pprof_flags "nonsense") <> ""
      /\ fServerPtr (pprof_flags "nonsense") <> ""
      /\ Forall (fun it => valid_entry (fst it)) (plan (pprof_flags "nonsense"))
      /\ length (plan (pprof_flags "nonsense")) = 3%nat
      /\ ended (process (world_of (pprof_flags "nonsense")) (failing 0 0))
         = LogFatal "listen tcp: address nonsense: missing port in address"
      /\ started (main_events
                    (process (world_of (pprof_flags "nonsense")) (failing 0 0)))
         = []).
Proof.
  split.
  - split; [reflexivity|]. split; [discriminate|]. split; [discriminate|].
    split; [repeat constructor|].
    split; [eexists; split; [vm_compute; reflexivity|reflexivity]|].
    split; vm_compute; reflexivity.
  - split; [reflexivity|]. split; [discriminate|]. split; [discriminate|].
    split; [repeat constructor; apply valid_entry_check; reflexivity|].
    split; [reflexivity|]. split; vm_compute; reflexivity.
Qed.

Lemma omap_Some {A B} (g : A -> B) (l : list A) :
  omap (fun x => Some (g x)) l = map g l.
Proof.
  induction l as [|x l IH]; [reflexivity|].
  cbn [omap list_omap map]. now rewrite IH.
Qed.

(** The listeners of the [listeners] slice when the main goroutine is
    through: those of the valid prefix of the plan. *)
Lemma main_listeners (w : World) (p1 : Proc) :
  checkFlags w (start_state w) = Done tt p1 ->
  listeners (final (run_main w))
  = make_listeners 0 (good_prefix (plan (flags p1))).
Proof.
  intros E. rewrite run_main_unfold, E.
  apply checkFlags_Done in E as (_ & _ & Hls & Hheap & _).
  cbn [start_state listeners heap] in Hls, Hheap.
  assert (H : listeners (listening w p1)
              = make_listeners 0 (good_prefix (plan (flags p1)))).
  { unfold listening, after_listeners, with_events. cbn [listeners].
    now rewrite Hls, Hheap. }
  destruct (first_bad (plan (flags p1))); [exact H|].
  rewrite waitForShutdown_loop_spec.
  now destruct (has_interrupt (signals w)).
Qed.

(** C5.  [startPointListener] makes one call, [Start], on the listener it
    is given, passing the flush thread count, flush interval, buffer limit
    and flush maximum of the flags, in that order, then
    [api.FormatGraphiteV2], [api.GraphiteBlockWorkUnit] and the service.
    In a process, whatever the pprof server does, every [Start] call
    carries the four values of the effective configuration and the two
    constants.  And the [Start] calls of the main goroutine are exactly
    these calls, one for each listener it has created and in the order of
    creation, whatever their ports and builders: one listener per planned
    entry when [startup] returns. *)
Theorem every_listener_same_configuration (w : World) :
  (forall (listener : PointListener) (service : WavefrontAPIService) (p : Proc),
      startPointListener listener service p
      = Done tt
          (with_events p
             [ListenerStart listener
                (fFlushThreadsPtr (flags p)) (fFlushIntervalPtr (flags p))
                (fMaxBufferSizePtr (flags p)) (fFlushMaxPointsPtr (flags p))
                FormatGraphiteV2 GraphiteBlockWorkUnit service]))
  /\ (forall (n : Pprof) (e : Event),
        In e (main_events (process w n)) ->
        match e with
        | ListenerStart _ _ _ _ _ _ _ _ =>
            exists eff, effective_flags w = Some eff /\ start_uses eff e
        | _ => True
        end)
  /\ match effective_flags w with
     | Some eff =>
         exists service,
           start_calls (trace (final (run_main w)))
           = map (fun l =>
                    ListenerStart l
                      (fFlushThreadsPtr eff) (fFlushIntervalPtr eff)
                      (fMaxBufferSizePtr eff) (fFlushMaxPointsPtr eff)
                      FormatGraphiteV2 GraphiteBlockWorkUnit service)
                 (listeners (final (run_main w)))
           /\ (forall p0,
                  startup w (start_state w) = Done tt p0 ->
                  listeners (final (run_main w)) = make_listeners 0 (plan eff))
     | None =>
         start_calls (trace (final (run_main w))) = []
         /\ listeners (final (run_main w)) = []
     end.
Proof.
  split; [|split].
  - intros listener service [f ls h tr].
    unfold startPointListener, with_events. run_m. reflexivity.
  - intros n e Hin. destruct (process_prefix w n) as (k & Hk).
    rewrite Hk in Hin. apply In_take in Hin.
    exact (run_starts_use_configuration w e Hin).
  - destruct (checkFlags w (start_state w)) as [[] p1|h p1] eqn:E.
    + destruct (effective_pprof w p1 E) as (eff & -> & Hh & _ & Hplan).
      exists (service_of w (flags p1)).
      rewrite (main_listeners w p1 E).
      split.
      * destruct (run_trace w p1 E) as (tail & -> & Htail).
        pose proof (returned_check_trace w p1 E) as Hchk.
        unfold start_calls. rewrite !omap_app.
        rewrite (starts_observed _ _ _ _
                   (fun l => Some (start_event (flags p1)
                                     (service_of w (flags p1)) l)))
          by reflexivity.
        replace (omap _ (trace p1)) with (@nil Event)
          by (symmetry; no_such_event Hchk).
        replace (omap _ tail) with (@nil Event)
          by (symmetry; no_such_event Htail).
        replace (omap _ (pre_events w (flags p1))) with (@nil Event)
          by (unfold pre_events;
              now destruct (String.eqb (fPprofAddr (flags p1)) "")).
        rewrite omap_Some, app_nil_r. cbn [app].
        destruct (hostnamed_keeps _ _ _ Hh) as (_ & _ & _ & H1 & H2 & H3 & H4).
        unfold start_event. now rewrite H1, H2, H3, H4.
      * intros p0 Hup.
        destruct (startup_done w p0 Hup) as (p1' & E' & Hfb & _).
        assert (p1' = p1) by congruence. subst p1'.
        now rewrite (good_prefix_all _ Hfb), Hplan.
    + assert (Hrun : run_main w = Halted h p1) by now rewrite run_main_unfold, E.
      destruct (halted_run_trace w h p1 E) as (evs & Htr & Hall).
      assert (Hcalls : start_calls (trace (final (run_main w))) = []).
      { rewrite Htr. unfold start_calls. no_such_event Hall. }
      assert (Hls : listeners (final (run_main w)) = []).
      { rewrite Hrun. apply checkFlags_Halted in E. cbn [final]. tauto. }
      rewrite Hcalls, Hls.
      destruct (effective_flags w) as [eff|]; [|split; reflexivity].
      exists (service_of w eff). split; [reflexivity|].
      intros p0 Hup. rewrite startup_unfold, E in Hup. discriminate Hup.
Qed.

Lemma every_listener_same_configuration_witness :
  exists service,
    start_calls (trace (final (run_main demo_world)))
    = map (fun l =>
             ListenerStart l 2 1000 100000 40000
               FormatGraphiteV2 GraphiteBlockWorkUnit service)
          [mkListener 0 2878 GraphiteBuilder; mkListener 1 2879 GraphiteBuilder;
           mkListener 2 4242 OpenTSDBBuilder]
    /\ length (start_calls (trace (final (run_main demo_world)))) = 3%nat.
Proof.
  destruct (proj2 (proj2 (every_listener_same_configuration demo_world)))
    as (service & H & _).
  exists service. split; [exact H|]. rewrite H. reflexivity.
Defined.

Lemma received_signals (sigs : list Signal) :
  received (map SignalReceived sigs) = sigs.
Proof.
  induction sigs as [|s sigs IH]; [reflexivity|].
  unfold received in *. cbn [map omap list_omap]. now rewrite IH.
Qed.

(** X1.  [main] never returns, and a process ends in [os.Exit],
    [log.Fatal] or [panic] or does not end at all.  It does not end exactly
    when [startup] has returned, no interrupt is delivered and the pprof
    server, if one is started, keeps serving; the main goroutine has then
    made all its calls, received every signal and stopped no listener. *)
Theorem main_never_returns (w : World) (n : Pprof) :
  (exists h p, run_main w = Halted h p)
  /\ (ended (process w n) = Parked
      <-> (exists p0, startup w (start_state w) = Done tt p0)
          /\ ~ In Interrupt (signals w)
          /\ (forall eff, effective_flags w = Some eff -> pprof_serves n eff))
  /\ (ended (process w n) = Parked ->
      main_events (process w n) = trace (final (run_main w))
      /\ received (main_events (process w n)) = signals w
      /\ stopped (main_events (process w n)) = []).
Proof.
  destruct (main_goroutine_fate w) as (h & p & Hrun & Hpark & Hconv).
  assert (Hend : main_end (run_main w) = h) by now rewrite Hrun.
  split; [eauto|].
  destruct (process_ended w n)
    as [(He & Hev & Hserve)|(eff & p1 & err & Heff & E & Hset & Hs & He)].
  - rewrite He, Hev, Hend. split.
    + split.
      * intros Hp. destruct (Hpark Hp) as (Hno & _ & p0 & Hup & _).
        split; [eauto|]. split; [exact Hno|].
        intros eff Heff. destruct (startup_done w p0 Hup) as (p1 & E & _).
        destruct (Hserve eff p1 Heff E) as [H|H]; [exact H|].
        rewrite Hend in H. contradiction.
      * intros (Hup & Hno & _). now apply Hconv.
    + intros Hp. destruct (Hpark Hp) as (Hno & Hstop & p0 & Hup & Hp0).
      rewrite Hrun. cbn [final].
      split; [reflexivity|]. split; [|exact Hstop].
      rewrite Hp0. cbn [with_events trace].
      destruct (startup_done w p0 Hup) as (p1 & E & _ & ->).
      destruct (listening_quiet w p1 E) as (_ & Hq).
      unfold received in *. rewrite omap_app, Hq. apply received_signals.
  - rewrite He. split.
    + split; [discriminate|].
      intros (_ & _ & Hall). destruct (Hall eff Heff) as [H|H]; congruence.
    + discriminate.
Qed.

(** X20.  Each [log.Fatal] that ends a process has one of four causes,
    told by its message: "Error loading config file: " with the loader's
    error, when a configuration file is named and does not load; "Error
    resolving hostname", when the effective hostname is empty and
    [os.Hostname] fails; "Invalid port " with an entry of a port list, when
    that entry is not a decimal integer fitting an [int]; and the error of
    [http.ListenAndServe] as it is, when [checkFlags] has returned, the
    effective pprof address is set and the pprof server fails on it. *)
Theorem fatal_message_tells_cause (w : World) (n : Pprof) (msg : string) :
  ended (process w n) = LogFatal msg ->
  (exists err,
      msg = "Error loading config file: " ++ err
      /\ fCfgPtr (flag_Parse w) <> ""
      /\ config_LoadConfig w (fCfgPtr (flag_Parse w)) = inr err)
  \/ (msg = "Error resolving hostname"
      /\ exists eff err,
           effective_flags w = Some eff
           /\ fHostnamePtr eff = "" /\ os_Hostname w = inr err)
  \/ (exists s eff,
        msg = "Invalid port " ++ s
        /\ effective_flags w = Some eff
        /\ In s (entries (fWavefrontPortsPtr eff) ++ entries (fOpenTSDBPortsPtr eff))
        /\ ~ valid_entry s)
  \/ (exists eff,
        effective_flags w = Some eff
        /\ fPprofAddr eff <> ""
        /\ http_ListenAndServe n (fPprofAddr eff) = Some msg
        /\ exists p1, checkFlags w (start_state w) = Done tt p1).
Proof.
  intros H.
  destruct (process_ended w n)
    as [(He & _)|(eff & p1 & err & Heff & E & Hset & Hs & He)].
  - rewrite He in H.
    destruct (main_goroutine_fate w) as (h & p & Hrun & _).
    rewrite Hrun in H. cbn [main_end] in H. subst h.
    destruct (main_goroutine_fatal w msg p Hrun) as [H1|[H1|H1]]; auto.
  - right; right; right. rewrite He in H. inversion H; subst.
    exists eff. eauto.
Qed.

Lemma fatal_message_tells_cause_witness :
  exists eff,
    effective_flags (world_of (pprof_flags "nonsense")) = Some eff
    /\ fPprofAddr eff <> ""
    /\ http_ListenAndServe (failing 0 0) (fPprofAddr eff)
       = Some "listen tcp: address nonsense: missing port in address"
    /\ exists p1,
         checkFlags (world_of (pprof_flags "nonsense"))
                    (start_state (world_of (pprof_flags "nonsense")))
         = Done tt p1.
Proof.
  destruct (fatal_message_tells_cause
              (world_of (pprof_flags "nonsense")) (failing 0 0)
              "listen tcp: address nonsense: missing port in address")
    as [(err & H & _)|[(H & _)|[(s & eff & H & _)|H]]].
  - vm_compute. reflexivity.
  - discriminate H.
  - discriminate H.
  - discriminate H.
  - exact H.
Defined.
